(** * Data validation app: rule engine and fix/revalidate loop

    A shallow embedding of [datavalidation1.py].  The script keeps its
    table in a pandas [DataFrame] that several functions share and one
    of them mutates in place, so the functions that receive [df] are
    written in a state-and-exception monad whose state is the frame.
    Widgets of the user interface that return a value are inputs given
    by the operator; the ones that only display are left out, they
    neither read nor change the frame or any returned value. *)

From Stdlib Require Import List String Ascii Bool Arith NArith ZArith Lia Sorted.
Import ListNotations.
Local Open Scope string_scope.
Local Open Scope list_scope.
Local Open Scope nat_scope.

(** ** Cells, exceptions, results *)

(** A cell of a text column as pandas loads it: a [str], or the float
    NaN where the value is missing. *)
Inductive cell : Type :=
| NaN : cell
| Str : string -> cell.

Definition cell_eqb (x y : cell) : bool :=
  match x, y with
  | NaN, NaN => true
  | Str a, Str b => String.eqb a b
  | _, _ => false
  end.

(** [pd.isnull(x)] *)
Definition isnull (x : cell) : bool :=
  match x with
  | NaN => true
  | Str _ => false
  end.

(** [str(x)]: a string is itself, the float NaN prints as "nan". *)
Definition str (x : cell) : string :=
  match x with
  | NaN => "nan"
  | Str s => s
  end.

(** The exceptions the script can meet; none of them is caught
    anywhere in the source.  [StopException] is what [st.stop()]
    raises to end the script. *)
Inductive exn : Type :=
| KeyError
| IndexError
| TypeError
| ValueError
| UnboundLocalError
| StopException.

Inductive result (A : Type) : Type :=
| Ok : A -> result A
| Raise : exn -> result A.
Arguments Ok {A} _.
Arguments Raise {A} _.

(** ** The rules dictionary

    [validation_rules] is a Python dict from column name to the label
    picked in the select box.  The loop of [validate_data] numbers its
    items with [enumerate], so insertion order matters: an association
    list with unique keys, a new key added at the end. *)

Inductive rule_type : Type :=
| RequiredFields          (* "Required fields" *)
| DataTypes               (* "Data types" *)
| StringLength            (* "String length" *)
| NumericRanges           (* "Numeric ranges" *)
| CategoricalValues       (* "Categorical values" *)
| DateTimeConstraints     (* "Date/time constraints" *)
| PatternMatching         (* "Pattern matching" *)
| UniqueValues            (* "Unique values" *)
| Dependencies            (* "Dependencies between columns" *)
| CustomFunctions.        (* "Custom validation functions" *)

Definition dict (V : Type) : Type := list (string * V).

Fixpoint dict_get {V} (d : dict V) (k : string) : option V :=
  match d with
  | [] => None
  | (k', v) :: d' => if String.eqb k' k then Some v else dict_get d' k
  end.

(** [k in d] *)
Definition dict_in {V} (k : string) (d : dict V) : bool :=
  match dict_get d k with
  | Some _ => true
  | None => false
  end.

(** [d[k] = v] *)
Fixpoint dict_set {V} (d : dict V) (k : string) (v : V) : dict V :=
  match d with
  | [] => [(k, v)]
  | (k', v') :: d' =>
      if String.eqb k' k then (k', v) :: d' else (k', v') :: dict_set d' k v
  end.

(** [enumerate(xs)] from a starting count. *)
Fixpoint enumerate_from {A} (n : nat) (xs : list A) : list (nat * A) :=
  match xs with
  | [] => []
  | x :: xs' => (n, x) :: enumerate_from (S n) xs'
  end.

Definition enumerate {A} (xs : list A) : list (nat * A) := enumerate_from 0 xs.

(** ** The data frame

    Named columns, labelled rows.  [rows] holds one entry per row, its
    index label and its cells in column order.  A [Series] taken out
    of a row ([df.loc[idx]]) is the row's cells keyed by column name. *)

Record DataFrame : Type := mkDataFrame {
  columns : list string;
  rows : list (nat * list cell)
}.

Definition Series : Type := dict cell.

(** [pd.DataFrame({name: values, ...})]: rows labelled 0, 1, ... *)
Definition frame_of_columns (cols : list (string * list cell)) : DataFrame :=
  let n := match cols with
           | [] => 0
           | (_, vs) :: _ => List.length vs
           end in
  mkDataFrame (map fst cols)
    (map (fun i => (i, map (fun c => nth i (snd c) NaN) cols)) (seq 0 n)).

Fixpoint position (k : string) (ks : list string) : option nat :=
  match ks with
  | [] => None
  | k' :: ks' =>
      if String.eqb k' k then Some 0 else option_map S (position k ks')
  end.

Fixpoint find_row (idx : nat) (rs : list (nat * list cell)) : option (list cell) :=
  match rs with
  | [] => None
  | (l, cs) :: rs' => if Nat.eqb l idx then Some cs else find_row idx rs'
  end.

(** The state-and-exception monad: a computation receives the state,
    returns a value or raises, and hands the state on.  [M] is the
    monad of the functions that hold [df]. *)
Definition St (S A : Type) : Type := S -> result A * S.

Definition M (A : Type) : Type := St DataFrame A.

Definition ret {S A} (a : A) : St S A := fun s => (Ok a, s).

Definition raise {S A} (e : exn) : St S A := fun s => (Raise e, s).

Definition bind {S A B} (m : St S A) (k : A -> St S B) : St S B :=
  fun s =>
    match m s with
    | (Ok a, s') => k a s'
    | (Raise e, s') => (Raise e, s')
    end.

Declare Scope monad_scope.
Delimit Scope monad_scope with monad.
Notation "x <- m ;; k" := (bind m (fun x => k))
  (at level 61, m at next level, right associativity) : monad_scope.
Notation "m ;;; k" := (bind m (fun _ => k))
  (at level 61, right associativity) : monad_scope.
Local Open Scope monad_scope.

(** A pure computation that may raise, run inside the monad. *)
Definition lift {S A} (r : result A) : St S A := fun s => (r, s).

(** [df[col]]: the column's values in row order, or [KeyError]. *)
Definition df_getitem (col : string) : M (list cell) :=
  fun df =>
    match position col (columns df) with
    | Some p => (Ok (map (fun r => nth p (snd r) NaN) (rows df)), df)
    | None => (Raise KeyError, df)
    end.

(** [df.columns] *)
Definition df_columns : M (list string) := fun df => (Ok (columns df), df).

(** [keep='first'] marking of duplicates: an element is marked when an
    equal one came before it.  pandas counts two missing values as
    equal here. *)
Fixpoint duplicated_from (seen : list cell) (xs : list cell) : list bool :=
  match xs with
  | [] => []
  | x :: xs' => existsb (cell_eqb x) seen :: duplicated_from (x :: seen) xs'
  end.

(** [df.duplicated(subset=[col])] *)
Definition df_duplicated (col : string) : M (list bool) :=
  c <- df_getitem col ;; ret (duplicated_from [] c).

(** [df.iloc[positions]]: a positional take; any position past the
    last row raises [IndexError]. *)
Definition df_iloc (positions : list nat) : M (list (nat * list cell)) :=
  fun df =>
    if forallb (fun p => p <? List.length (rows df)) positions
    then (Ok (map (fun p => nth p (rows df) (0, [])) positions), df)
    else (Raise IndexError, df).

(** [df.loc[idx, col]] *)
Definition df_loc_cell (idx : nat) (col : string) : M cell :=
  fun df =>
    match find_row idx (rows df), position col (columns df) with
    | Some cs, Some p => (Ok (nth p cs NaN), df)
    | _, _ => (Raise KeyError, df)
    end.

(** [df.loc[idx]] as a [Series] keyed by column name. *)
Definition df_loc (idx : nat) : M Series :=
  fun df =>
    match find_row idx (rows df) with
    | Some cs => (Ok (combine (columns df) cs), df)
    | None => (Raise KeyError, df)
    end.

(** What pandas makes of a dict assigned to a whole row: the dict is
    turned into a [Series] and aligned with the frame's columns, a
    column the dict has no key for receives NaN. *)
Definition align (cols : list string) (new_values : dict cell) : list cell :=
  map (fun c => match dict_get new_values c with
                | Some v => v
                | None => NaN
                end) cols.

Fixpoint set_row (idx : nat) (cs : list cell) (rs : list (nat * list cell))
  : list (nat * list cell) :=
  match rs with
  | [] => [(idx, cs)]
  | (l, cs') :: rs' =>
      if Nat.eqb l idx then (l, cs) :: rs' else (l, cs') :: set_row idx cs rs'
  end.

(** [df.loc[idx] = new_values]: the row labelled [idx] is replaced by
    the aligned dict; a label the index does not have yet is appended
    as a new row. *)
Definition df_loc_set (idx : nat) (new_values : dict cell) : M unit :=
  fun df =>
    (Ok tt,
     mkDataFrame (columns df)
       (set_row idx (align (columns df) new_values) (rows df))).

(** ** Regular expressions

    [re.match] on the e-mail pattern of the source.  A pattern is a
    regular expression over character classes; matching goes by
    derivatives, which decides whether the whole input is in the
    pattern's language. *)

Inductive regex : Type :=
| Void : regex
| Eps : regex
| Class : (ascii -> bool) -> regex
| Cat : regex -> regex -> regex
| Alt : regex -> regex -> regex
| Star : regex -> regex.

(** [r+] and [r{2,}] *)
Definition Plus (r : regex) : regex := Cat r (Star r).

Definition AtLeast2 (r : regex) : regex := Cat r (Cat r (Star r)).

Fixpoint nullable (r : regex) : bool :=
  match r with
  | Void => false
  | Eps => true
  | Class _ => false
  | Cat r1 r2 => nullable r1 && nullable r2
  | Alt r1 r2 => nullable r1 || nullable r2
  | Star _ => true
  end.

Fixpoint deriv (a : ascii) (r : regex) : regex :=
  match r with
  | Void => Void
  | Eps => Void
  | Class p => if p a then Eps else Void
  | Cat r1 r2 =>
      if nullable r1
      then Alt (Cat (deriv a r1) r2) (deriv a r2)
      else Cat (deriv a r1) r2
  | Alt r1 r2 => Alt (deriv a r1) (deriv a r2)
  | Star r1 => Cat (deriv a r1) (Star r1)
  end.

Fixpoint matches (r : regex) (s : list ascii) : bool :=
  match s with
  | [] => nullable r
  | a :: s' => matches (deriv a r) s'
  end.

(** [re.fullmatch(r, s) is not None] *)
Definition fullmatch (r : regex) (s : string) : bool :=
  matches r (list_ascii_of_string s).

Definition newline : ascii := ascii_of_nat 10.

(** [re.match('^' + r + '$', s) is not None].  [re.match] starts at the
    first character, so the leading [^] adds nothing.  Without the
    MULTILINE flag the closing [$] holds at the end of the string and
    also just before a newline that is the string's last character. *)
Definition re_match_anchored (r : regex) (s : string) : bool :=
  let cs := list_ascii_of_string s in
  matches r cs
  || match rev cs with
     | c :: before => Ascii.eqb c newline && matches r (rev before)
     | [] => false
     end.

Definition in_range (lo hi c : ascii) : bool :=
  (nat_of_ascii lo <=? nat_of_ascii c) && (nat_of_ascii c <=? nat_of_ascii hi).

Definition one_of (cs : string) (c : ascii) : bool :=
  existsb (Ascii.eqb c) (list_ascii_of_string cs).

Definition is_alpha (c : ascii) : bool :=
  in_range "a" "z" c || in_range "A" "Z" c.

Definition is_alnum (c : ascii) : bool :=
  is_alpha c || in_range "0" "9" c.

(** [[a-zA-Z0-9._%+-]] *)
Definition is_local (c : ascii) : bool := is_alnum c || one_of "._%+-" c.

(** [[a-zA-Z0-9.-]] *)
Definition is_domain (c : ascii) : bool := is_alnum c || one_of ".-" c.

Definition Chr (a : ascii) : regex := Class (Ascii.eqb a).

(** [[a-zA-Z0-9._%+-]+@[a-zA-Z0-9.-]+\.[a-zA-Z]{2,}], the pattern of
    the source between its [^] and [$]. *)
Definition email_pattern : regex :=
  Cat (Plus (Class is_local))
    (Cat (Chr "@")
       (Cat (Plus (Class is_domain))
          (Cat (Chr ".") (AtLeast2 (Class is_alpha))))).

(** The language of a pattern, as a relation. *)
Inductive lang : regex -> list ascii -> Prop :=
| lang_eps : lang Eps []
| lang_class : forall (p : ascii -> bool) a, p a = true -> lang (Class p) [a]
| lang_cat : forall r1 r2 s1 s2,
    lang r1 s1 -> lang r2 s2 -> lang (Cat r1 r2) (s1 ++ s2)
| lang_alt_l : forall r1 r2 s, lang r1 s -> lang (Alt r1 r2) s
| lang_alt_r : forall r1 r2 s, lang r2 s -> lang (Alt r1 r2) s
| lang_star_nil : forall r, lang (Star r) []
| lang_star_cons : forall r s1 s2,
    lang r s1 -> lang (Star r) s2 -> lang (Star r) (s1 ++ s2).

(** ** Dates

    [pd.to_datetime] is pandas' parser, which the script calls on one
    cell in [validate_row] and on a whole column in [validate_data].
    The development takes both calls as given: [None] stands for the
    exception pandas raises on a value it cannot parse, a missing
    value becomes [NaT]. *)

Inductive timestamp : Type :=
| NaT : timestamp
| Timestamp : Z -> timestamp.

(** [a >= b] on timestamps; a comparison with [NaT] is false. *)
Definition timestamp_ge (a b : timestamp) : bool :=
  match a, b with
  | Timestamp x, Timestamp y => (y <=? x)%Z
  | _, _ => false
  end.

Record datetime_parser : Type := mkParser {
  to_datetime : cell -> option timestamp;
  to_datetime_series : list cell -> option (list timestamp)
}.

(** An instance for the examples: ISO calendar dates [YYYY-MM-DD]
    within the years a nanosecond timestamp can hold, as the count of
    nanoseconds since 1970-01-01; any other text is refused. *)
Definition digit (c : ascii) : option Z :=
  if in_range "0" "9" c
  then Some (Z.of_nat (nat_of_ascii c) - 48)%Z
  else None.

Definition is_leap (y : Z) : bool :=
  ((y mod 4 =? 0) && negb (y mod 100 =? 0) || (y mod 400 =? 0))%Z.

Definition days_in_month (y m : Z) : Z :=
  (if m =? 2 then (if is_leap y then 29 else 28)
   else if (m =? 4) || (m =? 6) || (m =? 9) || (m =? 11) then 30
   else 31)%Z.

Definition days_from_civil (y m d : Z) : Z :=
  (let y' := if m <=? 2 then y - 1 else y in
   let era := y' / 400 in
   let yoe := y' mod 400 in
   let doy := (153 * (if 2 <? m then m - 3 else m + 9) + 2) / 5 + d - 1 in
   let doe := yoe * 365 + yoe / 4 - yoe / 100 + doy in
   era * 146097 + doe - 719468)%Z.

Definition iso_date (s : string) : option timestamp :=
  match list_ascii_of_string s with
  | [y1; y2; y3; y4; h1; m1; m2; h2; d1; d2] =>
      match digit y1, digit y2, digit y3, digit y4,
            digit m1, digit m2, digit d1, digit d2 with
      | Some a, Some b, Some c, Some d, Some e, Some f, Some g, Some h =>
          (let y := 1000 * a + 100 * b + 10 * c + d in
           let m := 10 * e + f in
           let dd := 10 * g + h in
           if Ascii.eqb h1 "-" && Ascii.eqb h2 "-"
              && (1678 <=? y) && (y <=? 2261)
              && (1 <=? m) && (m <=? 12)
              && (1 <=? dd) && (dd <=? days_in_month y m)
           then Some (Timestamp (days_from_civil y m dd * 86400000000000))
           else None)%Z
      | _, _, _, _, _, _, _, _ => None
      end
  | _ => None
  end.

Definition iso_to_datetime (x : cell) : option timestamp :=
  match x with
  | NaN => Some NaT
  | Str s => iso_date s
  end.

Fixpoint iso_to_datetime_series (xs : list cell) : option (list timestamp) :=
  match xs with
  | [] => Some []
  | x :: xs' =>
      match iso_to_datetime x, iso_to_datetime_series xs' with
      | Some t, Some ts => Some (t :: ts)
      | _, _ => None
      end
  end.

Definition iso : datetime_parser := mkParser iso_to_datetime iso_to_datetime_series.

(** ** The operator

    What the person at the browser enters.  [selectbox n col] is the
    rule picked for column [col] the [n]-th time the rules are asked
    for; [text_input idx col v] is the text typed for column [col] of
    row [idx], the field being shown with the current value [v]; the
    check boxes and the button are read once per turn [k] of the main
    loop. *)

Inductive file_format : Type := CSV | Excel | JSON.

Record operator : Type := mkOperator {
  selectbox : nat -> string -> rule_type;
  text_input : nat -> string -> cell -> string;
  checkbox_confirm : nat -> bool;
  button_save : nat -> bool;
  checkbox_export : nat -> bool;
  selectbox_format : nat -> file_format
}.

(** [uploaded_file]: its name and the frame pandas reads out of it. *)
Record UploadedFile : Type := mkUploadedFile {
  name : string;
  parsed : DataFrame
}.

(** [s.split(".")[-1]]: the text after the last dot, all of [s] when
    it has none. *)
Fixpoint after_last_dot (s : string) (acc : string) : string :=
  match s with
  | EmptyString => acc
  | String c s' =>
      if Ascii.eqb c "."
      then after_last_dot s' EmptyString
      else after_last_dot s' (acc ++ String c EmptyString)
  end.

Definition load_data (uploaded_file : UploadedFile) : result DataFrame :=
  let file_type := after_last_dot (name uploaded_file) EmptyString in
  if String.eqb file_type "csv" then Ok (parsed uploaded_file)
  else if String.eqb file_type "xlsx" then Ok (parsed uploaded_file)
  else if String.eqb file_type "json" then Ok (parsed uploaded_file)
  else Raise StopException.

Definition get_validation_rules (select : string -> rule_type) (df : DataFrame)
  : dict rule_type :=
  fold_left (fun validation_rules col => dict_set validation_rules col (select col))
    (columns df) [].

(** [.any()] of a boolean column. *)
Definition any (bs : list bool) : bool := existsb (fun b => b) bs.

Definition custom_phone_number_validation (value : cell) : bool := true.

Section Validation.

Variable pd : datetime_parser.

(** [pd.to_datetime(df[col])] *)
Definition to_datetime_column (col : string) : M (list timestamp) :=
  c <- df_getitem col ;;
  match to_datetime_series pd c with
  | Some ts => ret ts
  | None => raise ValueError
  end.

(** One turn of the loop of [validate_data]: the branch of the rule of
    column [col], which is item [idx] of the rules. *)
Definition validate_column (validation_rules : dict rule_type)
    (idx : nat) (col : string) (rule : rule_type) (failed_rows : list nat)
  : M (list nat) :=
  match rule with
  | RequiredFields =>
      c <- df_getitem col ;;
      if any (map isnull c) then ret (failed_rows ++ [idx]) else ret failed_rows
  | UniqueValues =>
      d <- df_duplicated col ;;
      if any d then ret (failed_rows ++ [idx]) else ret failed_rows
  | Dependencies =>
      if dict_in "Start Date" validation_rules && dict_in "End Date" validation_rules
      then
        starts <- to_datetime_column "Start Date" ;;
        ends <- to_datetime_column "End Date" ;;
        if any (map (fun se => timestamp_ge (fst se) (snd se)) (combine starts ends))
        then ret (failed_rows ++ [idx])
        else ret failed_rows
      else ret failed_rows
  | PatternMatching =>
      if String.eqb col "Email Address"
      then
        c <- df_getitem col ;;
        if any (map (fun x => negb (re_match_anchored email_pattern (str x))) c)
        then ret (failed_rows ++ [idx])
        else ret failed_rows
      else ret failed_rows
  | CustomFunctions =>
      if String.eqb col "Phone Number"
      then
        c <- df_getitem col ;;
        if any (map (fun x => negb (custom_phone_number_validation x)) c)
        then ret (failed_rows ++ [idx])
        else ret failed_rows
      else ret failed_rows
  | _ => ret failed_rows
  end.

Fixpoint validate_data_loop (validation_rules : dict rule_type)
    (items : list (nat * (string * rule_type))) (failed_rows : list nat)
  : M (list nat) :=
  match items with
  | [] => ret failed_rows
  | (idx, (col, rule)) :: items' =>
      failed_rows' <- validate_column validation_rules idx col rule failed_rows ;;
      validate_data_loop validation_rules items' failed_rows'
  end.

(** [validate_data(df, validation_rules)].  After the loop the failed
    entries are shown with [df.iloc[failed_rows]] when there are any. *)
Definition validate_data (validation_rules : dict rule_type) : M (list nat) :=
  failed_rows <- validate_data_loop validation_rules (enumerate validation_rules) [] ;;
  if 0 <? List.length failed_rows
  then df_iloc failed_rows ;;; ret failed_rows
  else ret failed_rows.

(** [row[col]] *)
Definition series_getitem (row : Series) (col : string) : result cell :=
  match dict_get row col with
  | Some v => Ok v
  | None => Raise KeyError
  end.

(** [pd.to_datetime(row[col])] *)
Definition to_datetime_cell (row : Series) (col : string) : result timestamp :=
  match series_getitem row col with
  | Ok v =>
      match to_datetime pd v with
      | Some t => Ok t
      | None => Raise ValueError
      end
  | Raise e => Raise e
  end.

(** One turn of the loop of [validate_row]: [Ok false] is the turn
    that ends in [return False], [Ok true] the turn that falls through
    to the next rule.  [Series.duplicated] has no [subset] parameter,
    the call of the unique-values branch raises [TypeError]; [re.match]
    wants a string and raises [TypeError] on a NaN. *)
Definition validate_row_rule (validation_rules : dict rule_type)
    (row : Series) (col : string) (rule : rule_type) : result bool :=
  match rule with
  | RequiredFields =>
      match series_getitem row col with
      | Ok v => Ok (negb (isnull v))
      | Raise e => Raise e
      end
  | UniqueValues => Raise TypeError
  | Dependencies =>
      if dict_in "Start Date" validation_rules && dict_in "End Date" validation_rules
      then
        match to_datetime_cell row "Start Date" with
        | Ok s =>
            match to_datetime_cell row "End Date" with
            | Ok e => Ok (negb (timestamp_ge s e))
            | Raise x => Raise x
            end
        | Raise x => Raise x
        end
      else Ok true
  | PatternMatching =>
      if String.eqb col "Email Address"
      then
        match series_getitem row col with
        | Ok (Str s) => Ok (re_match_anchored email_pattern s)
        | Ok NaN => Raise TypeError
        | Raise e => Raise e
        end
      else Ok true
  | CustomFunctions =>
      if String.eqb col "Phone Number"
      then
        match series_getitem row col with
        | Ok v => Ok (custom_phone_number_validation v)
        | Raise e => Raise e
        end
      else Ok true
  | _ => Ok true
  end.

Fixpoint validate_row_loop (validation_rules : dict rule_type)
    (items : list (string * rule_type)) (row : Series) : result bool :=
  match items with
  | [] => Ok true
  | (col, rule) :: items' =>
      match validate_row_rule validation_rules row col rule with
      | Ok true => validate_row_loop validation_rules items' row
      | Ok false => Ok false
      | Raise e => Raise e
      end
  end.

Definition validate_row (row : Series) (validation_rules : dict rule_type)
  : result bool :=
  validate_row_loop validation_rules validation_rules row.

Variable op : operator.

(** The inner loop of [fix_failed_rows]: one text field per column
    whose rule is "Required fields". *)
Fixpoint ask_new_values (validation_rules : dict rule_type) (idx : nat)
    (cols : list string) (new_values : dict cell) : M (dict cell) :=
  match cols with
  | [] => ret new_values
  | col :: cols' =>
      match dict_get validation_rules col with
      | None => raise KeyError
      | Some RequiredFields =>
          v <- df_loc_cell idx col ;;
          ask_new_values validation_rules idx cols'
            (dict_set new_values col (Str (text_input op idx col v)))
      | Some _ => ask_new_values validation_rules idx cols' new_values
      end
  end.

Fixpoint fix_failed_rows_loop (validation_rules : dict rule_type)
    (failed_rows : list nat) (new_failed_rows : list nat) : M (list nat) :=
  match failed_rows with
  | [] => ret new_failed_rows
  | idx :: failed_rows' =>
      cols <- df_columns ;;
      new_values <- ask_new_values validation_rules idx cols [] ;;
      df_loc_set idx new_values ;;;
      row <- df_loc idx ;;
      valid <- lift (validate_row row validation_rules) ;;
      fix_failed_rows_loop validation_rules failed_rows'
        (if valid then new_failed_rows else new_failed_rows ++ [idx])
  end.

(** [fix_failed_rows(df, failed_rows, validation_rules)] *)
Definition fix_failed_rows (failed_rows : list nat)
    (validation_rules : dict rule_type) : M (list nat) :=
  fix_failed_rows_loop validation_rules failed_rows [].

(** *** The main loop

    The local variables of [main] once the file is loaded.
    [failed_rows] is [None] until an assignment binds it; [written]
    lists what the export has written out. *)
Record locals : Type := mkLocals {
  df : DataFrame;
  validation_rules : dict rule_type;
  failed_rows : option (list nat);
  written : list (file_format * DataFrame)
}.

(** A computation on the frame, run on the frame [df] refers to. *)
Definition on_df {A} (m : M A) : St locals A :=
  fun l =>
    match m (df l) with
    | (r, df') =>
        (r, mkLocals df' (validation_rules l) (failed_rows l) (written l))
    end.

Definition get_locals : St locals locals := fun l => (Ok l, l).

Definition set_df (d : DataFrame) : St locals unit :=
  fun l => (Ok tt, mkLocals d (validation_rules l) (failed_rows l) (written l)).

Definition set_validation_rules (r : dict rule_type) : St locals unit :=
  fun l => (Ok tt, mkLocals (df l) r (failed_rows l) (written l)).

Definition set_failed_rows (f : list nat) : St locals unit :=
  fun l => (Ok tt, mkLocals (df l) (validation_rules l) (Some f) (written l)).

(** Reading the local [failed_rows]: unbound, it raises. *)
Definition read_failed_rows : St locals (list nat) :=
  fun l =>
    match failed_rows l with
    | Some f => (Ok f, l)
    | None => (Raise UnboundLocalError, l)
    end.

(** [export_validation_results(df, failed_rows)]: the frame is written
    in the chosen format when the inner check box is ticked; the
    second argument is not used. *)
Definition export_validation_results (k : nat) (failed : list nat)
  : St locals unit :=
  fun l =>
    if checkbox_export op k
    then (Ok tt,
          mkLocals (df l) (validation_rules l) (failed_rows l)
            (written l ++ [(selectbox_format op k, df l)]))
    else (Ok tt, l).

(** Turn [k] of [while True]. *)
Definition loop_body (uploaded_file : UploadedFile) (k : nat) : St locals unit :=
  old <- read_failed_rows ;;
  l <- get_locals ;;
  new_failed <- on_df (fix_failed_rows old (validation_rules l)) ;;
  set_failed_rows new_failed ;;;
  let confirm_changes := checkbox_confirm op k in
  (if button_save op k && confirm_changes
   then export_validation_results k new_failed
   else ret tt) ;;;
  (if negb confirm_changes
   then
     d <- lift (load_data uploaded_file) ;;
     set_df d ;;;
     set_validation_rules (get_validation_rules (selectbox op (S k)) d)
   else ret tt) ;;;
  l' <- get_locals ;;
  on_df (validate_data (validation_rules l')) ;;;
  set_failed_rows [].

(** How a run of [main] stands when the model stops following it. *)
Inductive status : Type :=
| Returned    (* [main] returned *)
| Running.    (* still inside [while True] *)

Fixpoint main_loop (uploaded_file : UploadedFile) (fuel k : nat)
  : St locals status :=
  match fuel with
  | 0 => ret Running
  | S fuel' =>
      loop_body uploaded_file k ;;; main_loop uploaded_file fuel' (S k)
  end.

(** [main()], followed for [fuel] turns of its loop.  The second
    component is the local state, once there is one. *)
Definition main (uploaded_file : option UploadedFile) (fuel : nat)
  : result status * option locals :=
  match uploaded_file with
  | None => (Ok Returned, None)
  | Some f =>
      match load_data f with
      | Raise e => (Raise e, None)
      | Ok d =>
          let rules := get_validation_rules (selectbox op 0) d in
          match (on_df (validate_data rules) ;;; main_loop f fuel 0)
                  (mkLocals d rules None [])
          with
          | (r, l) => (r, Some l)
          end
      end
  end.

End Validation.

(** ** Re-validation of rows

    The last step of each turn of [fix_failed_rows], on its own: the
    row is taken out of the frame, handed to [validate_row], and kept
    in the new failing list when it does not pass. *)
Fixpoint revalidate_rows (pd : datetime_parser) (validation_rules : dict rule_type)
    (idxs : list nat) (new_failed_rows : list nat) : M (list nat) :=
  match idxs with
  | [] => ret new_failed_rows
  | idx :: idxs' =>
      row <- df_loc idx ;;
      valid <- lift (validate_row pd row validation_rules) ;;
      revalidate_rows pd validation_rules idxs'
        (if valid then new_failed_rows else new_failed_rows ++ [idx])
  end.

(** ** Frames of the examples *)

(** One column with the values ["x", null, "y"]. *)
Definition required_frame : DataFrame :=
  frame_of_columns [("Name", [Str "x"; NaN; Str "y"])].

(** One column with the values [A, A, B]. *)
Definition unique_frame : DataFrame :=
  frame_of_columns [("Code", [Str "A"; Str "A"; Str "B"])].

(** The column [Email Address] with ["a@b.com", "bad"]. *)
Definition email_frame : DataFrame :=
  frame_of_columns [("Email Address", [Str "a@b.com"; Str "bad"])].

(** One row whose start date is after its end date. *)
Definition dates_frame : DataFrame :=
  frame_of_columns [("Start Date", [Str "2024-01-02"]);
                    ("End Date", [Str "2024-01-01"])].

(** Two columns, the first with a missing value in row 0. *)
Definition fix_frame : DataFrame :=
  frame_of_columns [("Name", [NaN; Str "a"]); ("City", [Str "keep"; Str "b"])].

(** An operator who picks "Required fields" for every column, types
    [text] into every field, ticks or leaves the confirmation box as
    [confirm] says, and presses every button. *)
Definition typist (text : string) (confirm : bool) : operator :=
  mkOperator (fun _ _ => RequiredFields) (fun _ _ _ => text)
    (fun _ => confirm) (fun _ => true) (fun _ => true) (fun _ => CSV).

(** The upload of the end-to-end example: a CSV file whose one column
    has a missing value in row 1. *)
Definition required_upload : UploadedFile :=
  mkUploadedFile "people.csv" required_frame.

(** One row whose start date cannot be read as a date. *)
Definition bad_dates_frame : DataFrame :=
  frame_of_columns [("Start Date", [Str "not a date"]);
                    ("End Date", [Str "2024-01-01"])].

(** The column [Email Address] with a missing value in row 1. *)
Definition missing_email_frame : DataFrame :=
  frame_of_columns [("Email Address", [Str "a@b.com"; NaN])].

(** ** What the e-mail check lets through

    The text is in the language of the pattern, or it is a text of
    that language followed by one newline. *)
Definition full_match_or_final_newline (s : string) : Prop :=
  lang email_pattern (list_ascii_of_string s)
  \/ exists cs, list_ascii_of_string s = cs ++ [newline] /\ lang email_pattern cs.

(** "a@b.com" followed by a newline. *)
Definition email_then_newline : string :=
  String.append "a@b.com" (String newline EmptyString).

(** The column [Email Address] holding that one text. *)
Definition newline_email_frame : DataFrame :=
  frame_of_columns [("Email Address", [Str email_then_newline])].

(** ** Rules without a branch

    Five of the ten labels have no branch in [validate_data] or in
    [validate_row]; the pattern branch is guarded by the column name
    "Email Address" and the custom branch by "Phone Number".  For the
    column [col] the rule [rule] reaches no test at all when
    [no_branch col rule] holds. *)
Definition no_branch (col : string) (rule : rule_type) : bool :=
  match rule with
  | DataTypes | StringLength | NumericRanges | CategoricalValues
  | DateTimeConstraints => true
  | PatternMatching => negb (String.eqb col "Email Address")
  | CustomFunctions => negb (String.eqb col "Phone Number")
  | RequiredFields | UniqueValues | Dependencies => false
  end.

(** A text without a dot. *)
Definition dot_free (s : string) : bool :=
  negb (existsb (Ascii.eqb ".") (list_ascii_of_string s)).

(** ** The shape of an accepted address

    One or more characters of the local class, an at sign, one or more
    characters of the domain class, a dot, two or more letters. *)
Definition email_shape (cs : list ascii) : Prop :=
  exists l d t,
    cs = l ++ "@"%char :: d ++ "."%char :: t
    /\ l <> [] /\ Forall (fun a => is_local a = true) l
    /\ d <> [] /\ Forall (fun a => is_domain a = true) d
    /\ 2 <= List.length t /\ Forall (fun a => is_alpha a = true) t.

(** ** Frames as [pd.read_*] builds them

    The index labels are distinct and every row has one cell per
    column. *)
Definition well_formed (d : DataFrame) : Prop :=
  NoDup (map fst (rows d))
  /\ Forall (fun r => List.length (snd r) = List.length (columns d)) (rows d).

(** The rules whose branch reads the column [df[col]]. *)
Definition reads_column (col : string) (rule : rule_type) : bool :=
  match rule with
  | RequiredFields | UniqueValues => true
  | PatternMatching => String.eqb col "Email Address"
  | CustomFunctions => String.eqb col "Phone Number"
  | _ => false
  end.

(** The column [A, A, B] once row 1 holds C. *)
Definition unique_fixed_frame : DataFrame :=
  frame_of_columns [("Code", [Str "A"; Str "C"; Str "B"])].

(** Two rows of dates, the second with its start after its end. *)
Definition late_violation_frame : DataFrame :=
  frame_of_columns [("Start Date", [Str "2024-01-01"; Str "2024-01-02"]);
                    ("End Date", [Str "2024-01-05"; Str "2024-01-01"])].

(** * Properties *)

(** ** The validation run reads the frame and leaves it as it was *)

Lemma df_getitem_frame : forall col d, snd (df_getitem col d) = d.
Proof.
  intros col d. unfold df_getitem.
  destruct (position col (columns d)); reflexivity.
Qed.

Lemma df_getitem_inv : forall col d r d',
  df_getitem col d = (r, d') -> d' = d.
Proof.
  intros col d r d' H.
  pose proof (df_getitem_frame col d) as E. rewrite H in E. exact E.
Qed.

Lemma to_datetime_column_inv : forall pd col d r d',
  to_datetime_column pd col d = (r, d') -> d' = d.
Proof.
  intros pd col d r d'. unfold to_datetime_column, bind.
  destruct (df_getitem col d) as [[c|e] d1] eqn:E;
    apply df_getitem_inv in E; subst d1.
  - destruct (to_datetime_series pd c); unfold ret, raise; congruence.
  - congruence.
Qed.

Lemma df_iloc_inv : forall ps d r d', df_iloc ps d = (r, d') -> d' = d.
Proof.
  intros ps d r d'. unfold df_iloc.
  destruct (forallb _ ps); congruence.
Qed.

(** The branches that look at one column and add [idx] when a test
    holds all have this shape. *)
Lemma flag_column_inv : forall (test : list cell -> bool) col (idx : nat)
    (fr : list nat) d r d',
  (c <- df_getitem col ;;
   if test c then ret (fr ++ [idx]) else ret fr) d = (r, d') ->
  d' = d.
Proof.
  intros test col idx fr d r d'. unfold bind.
  destruct (df_getitem col d) as [[c|e] d1] eqn:E;
    apply df_getitem_inv in E; subst d1.
  - destruct (test c); unfold ret; congruence.
  - congruence.
Qed.

Lemma validate_column_inv : forall pd rules idx col rule fr d r d',
  validate_column pd rules idx col rule fr d = (r, d') -> d' = d.
Proof.
  intros pd rules idx col rule fr d r d' H.
  destruct rule; simpl in H;
    try (unfold ret in H; congruence).
  - eapply flag_column_inv with (test := fun c => any (map isnull c)).
    exact H.
  - destruct (String.eqb col "Email Address").
    + eapply flag_column_inv with
        (test := fun c => any (map (fun x =>
                   negb (re_match_anchored email_pattern (str x))) c)).
      exact H.
    + unfold ret in H; congruence.
  - unfold df_duplicated, bind in H.
    destruct (df_getitem col d) as [[c|e] d1] eqn:E;
      apply df_getitem_inv in E; subst d1; [|congruence].
    unfold ret in H. destruct (any _); congruence.
  - destruct (dict_in "Start Date" rules && dict_in "End Date" rules).
    + unfold bind in H.
      destruct (to_datetime_column pd "Start Date" d) as [[s|e] d1] eqn:E1;
        apply to_datetime_column_inv in E1; subst d1; [|congruence].
      destruct (to_datetime_column pd "End Date" d) as [[t|e] d1] eqn:E2;
        apply to_datetime_column_inv in E2; subst d1; [|congruence].
      destruct (any _); unfold ret in H; congruence.
    + unfold ret in H; congruence.
  - destruct (String.eqb col "Phone Number").
    + eapply flag_column_inv with
        (test := fun c => any (map (fun x =>
                   negb (custom_phone_number_validation x)) c)).
      exact H.
    + unfold ret in H; congruence.
Qed.

Lemma validate_data_loop_inv : forall pd rules items fr d r d',
  validate_data_loop pd rules items fr d = (r, d') -> d' = d.
Proof.
  intros pd rules items. induction items as [|[idx [col rule]] items IH];
    intros fr d r d' H; simpl in H.
  - unfold ret in H; congruence.
  - unfold bind in H.
    destruct (validate_column pd rules idx col rule fr d) as [[fr'|e] d1] eqn:E;
      apply validate_column_inv in E; subst d1.
    + eapply IH; eassumption.
    + congruence.
Qed.

Lemma validate_data_inv : forall pd rules d r d',
  validate_data pd rules d = (r, d') -> d' = d.
Proof.
  intros pd rules d r d'. unfold validate_data, bind.
  destruct (validate_data_loop pd rules (enumerate rules) [] d)
    as [[fr|e] d1] eqn:E;
    apply validate_data_loop_inv in E; subst d1; [|congruence].
  destruct (0 <? List.length fr).
  - destruct (df_iloc fr d) as [[x|e] d1] eqn:E; apply df_iloc_inv in E;
      subst d1; unfold ret; congruence.
  - unfold ret; congruence.
Qed.

(** C9. Validation is idempotent: a run of [validate_data] hands the
    frame on as it received it, and a second run right after the first
    gives the same outcome, on every frame and every set of rules. *)
Theorem C9_validate_data_idempotent : forall pd rules d,
  let first := validate_data pd rules d in
  let second := validate_data pd rules (snd first) in
  snd first = d /\ snd second = d /\ fst second = fst first.
Proof.
  intros pd rules d first second.
  assert (E : snd first = d).
  { subst first. destruct (validate_data pd rules d) as [r d'] eqn:H.
    simpl. eapply validate_data_inv; eassumption. }
  subst second. rewrite E. fold first. rewrite E. auto.
Qed.

(** ** What the failing list holds *)

Lemma validate_column_entries : forall pd rules idx col rule fr d fr' d',
  validate_column pd rules idx col rule fr d = (Ok fr', d') ->
  fr' = fr \/ fr' = fr ++ [idx].
Proof.
  intros pd rules idx col rule fr d fr' d' H.
  destruct rule; simpl in H; unfold df_duplicated, to_datetime_column in H;
    repeat (unfold bind, ret, raise in H;
            match type of H with
            | context [match ?x with _ => _ end] => destruct x
            | context [if ?b then _ else _] => destruct b
            end);
    unfold ret in H; inversion H; auto.
Qed.

(** Every entry of the list [validate_data] returns is the position of
    a rule among the items of [validation_rules]. *)
Lemma validate_data_loop_entries : forall pd rules items n fr d fr' d',
  validate_data_loop pd rules (enumerate_from n items) fr d = (Ok fr', d') ->
  forall i, In i fr' -> In i fr \/ (n <= i < n + List.length items).
Proof.
  intros pd rules items. induction items as [|[col rule] items IH];
    intros n fr d fr' d' H i Hi; simpl in H.
  - unfold ret in H. inversion H; subst. auto.
  - unfold bind in H.
    destruct (validate_column pd rules n col rule fr d) as [[fr1|e] d1] eqn:E;
      [|discriminate].
    apply validate_column_entries in E.
    destruct (IH _ _ _ _ _ H i Hi) as [Hin|Hr].
    + destruct E as [->| ->]; auto.
      apply in_app_or in Hin. destruct Hin as [Hin|[<-|[]]]; auto.
      right. simpl. lia.
    + right. simpl. lia.
Qed.

Lemma validate_data_entries : forall pd rules d fr d',
  validate_data pd rules d = (Ok fr, d') ->
  forall i, In i fr -> i < List.length rules.
Proof.
  intros pd rules d fr d'. unfold validate_data, bind.
  destruct (validate_data_loop pd rules (enumerate rules) [] d)
    as [[fr0|e] d1] eqn:E; [|discriminate].
  intros H i Hi.
  assert (fr = fr0).
  { destruct (0 <? List.length fr0); [destruct (df_iloc fr0 d1) as [[x|e] d2]|];
      unfold ret in H; congruence. }
  subst fr0. unfold enumerate in E.
  destruct (validate_data_loop_entries _ _ _ _ _ _ _ _ E i Hi) as [[]|Hr]. lia.
Qed.

(** C1. On the column ["x", null, "y"] under a "Required fields" rule
    the run returns [0], the position of the column among the rules;
    row 1, the row with the missing value, is not what the list
    holds. *)
Theorem C1_required_reports_rule_position : forall pd,
  df_getitem "Name" required_frame = (Ok [Str "x"; NaN; Str "y"], required_frame)
  /\ validate_data pd [("Name", RequiredFields)] required_frame
     = (Ok [0], required_frame)
  /\ ~ In 1 [0].
Proof.
  intros pd. repeat split; try reflexivity.
  simpl. intros [H|[]]. discriminate.
Qed.

(** C2. The full run and the row-by-row re-validation of all rows
    disagree on the column ["x", null, "y"] under "Required fields":
    the full run returns [0], re-validating rows 0, 1 and 2 one by one
    returns [1]. *)
Theorem C2_full_run_and_row_revalidation_differ : forall pd,
  validate_data pd [("Name", RequiredFields)] required_frame
  = (Ok [0], required_frame)
  /\ revalidate_rows pd [("Name", RequiredFields)] [0; 1; 2] [] required_frame
     = (Ok [1], required_frame).
Proof.
  intros pd. split; reflexivity.
Qed.

(** ** Duplicates *)

(** C3. On the column [A, A, B] under "Unique values" the full run
    returns [0], the position of the rule among the rules: row 1, one
    of the two rows that hold A, is not in the list.  The per-row
    check of that rule raises [TypeError] for every row and every
    column, so [validate_row] raises as soon as it meets the rule: once
    row 1 holds C, re-validating that row raises instead of reporting
    a pass, although a full run on that frame reports nothing.  The
    fix step has no text field for the column: handed row 1 it blanks
    the cell and then raises in the same way. *)
Theorem C3_unique_rule_reports_position_and_row_check_raises : forall pd,
  validate_data pd [("Code", UniqueValues)] unique_frame
  = (Ok [0], unique_frame)
  /\ ~ In 1 [0]
  /\ (forall rules row col,
        validate_row_rule pd rules row col UniqueValues = Raise TypeError)
  /\ (forall row col rest,
        validate_row pd row ((col, UniqueValues) :: rest) = Raise TypeError)
  /\ validate_data pd [("Code", UniqueValues)] unique_fixed_frame
     = (Ok [], unique_fixed_frame)
  /\ revalidate_rows pd [("Code", UniqueValues)] [1] [] unique_fixed_frame
     = (Raise TypeError, unique_fixed_frame)
  /\ fix_failed_rows pd (typist "C" false) [1] [("Code", UniqueValues)]
       unique_frame
     = (Raise TypeError,
        frame_of_columns [("Code", [Str "A"; NaN; Str "B"])]).
Proof.
  intros pd. split; [reflexivity|]. split.
  - simpl. intros [H|[]]. discriminate.
  - repeat split; reflexivity.
Qed.

(** ** The fix step *)

Lemma find_row_set_row_other : forall idx idx' cs rs,
  idx' <> idx -> find_row idx' (set_row idx cs rs) = find_row idx' rs.
Proof.
  intros idx idx' cs rs Hne. induction rs as [|[l cs'] rs IH]; simpl.
  - destruct (Nat.eqb_spec idx idx'); [congruence|reflexivity].
  - destruct (Nat.eqb_spec l idx) as [->|Hl]; simpl.
    + destruct (Nat.eqb_spec idx idx'); [congruence|reflexivity].
    + destruct (Nat.eqb l idx'); [reflexivity|exact IH].
Qed.

Lemma ask_new_values_inv : forall op rules idx cols nv d r d',
  ask_new_values op rules idx cols nv d = (r, d') -> d' = d.
Proof.
  intros op rules idx cols. induction cols as [|col cols IH];
    intros nv d r d' H; simpl in H.
  - unfold ret in H; congruence.
  - destruct (dict_get rules col) as [rule|]; [|unfold raise in H; congruence].
    destruct rule; try (eapply IH; eassumption).
    unfold bind, df_loc_cell in H.
    destruct (find_row idx (rows d)); [destruct (position col (columns d))|];
      try congruence.
    eapply IH; eassumption.
Qed.

(** The rows that are not handed to the fix step keep their cells, and
    the columns stay the same. *)
Lemma fix_failed_rows_loop_other_rows : forall pd op rules failed nf d r d',
  fix_failed_rows_loop pd op rules failed nf d = (r, d') ->
  columns d' = columns d
  /\ forall idx', ~ In idx' failed -> find_row idx' (rows d') = find_row idx' (rows d).
Proof.
  intros pd op rules failed. induction failed as [|idx failed IH];
    intros nf d r d' H; simpl in H.
  - unfold ret in H. inversion H; subst. auto.
  - unfold bind, df_columns in H.
    destruct (ask_new_values op rules idx (columns d) [] d) as [[nv|e] d1] eqn:E;
      apply ask_new_values_inv in E; subst d1;
      [|inversion H; subst; auto].
    unfold df_loc_set in H.
    set (d2 := mkDataFrame (columns d) (set_row idx (align (columns d) nv) (rows d))) in H.
    assert (Hd2 : columns d2 = columns d
                  /\ forall idx', ~ In idx' (idx :: failed) ->
                       find_row idx' (rows d2) = find_row idx' (rows d)).
    { split; [reflexivity|]. intros idx' Hn. simpl.
      apply find_row_set_row_other. intros ->. apply Hn. now left. }
    destruct Hd2 as [Hc2 Hr2].
    unfold df_loc in H.
    destruct (find_row idx (rows d2)) as [cs|].
    + unfold lift in H.
      destruct (validate_row pd (combine (columns d2) cs) rules) as [valid|e].
      * apply IH in H. destruct H as [Hc Hr]. split; [congruence|].
        intros idx' Hn. rewrite Hr by (intros Hin; apply Hn; now right).
        apply Hr2. exact Hn.
      * inversion H; subst. split; [assumption|]. exact Hr2.
    + inversion H; subst. split; [assumption|]. exact Hr2.
Qed.

(** C5. Fixing row 0 of a frame with the columns Name (rule "Required
    fields") and City (another rule) writes the typed text into Name
    and blanks City, which was not part of what was submitted: the cell
    held "keep" before the fix and NaN after it.  Row 1, which was not
    submitted, is unchanged. *)
Theorem C5_fix_blanks_columns_not_submitted : forall pd,
  let rules := [("Name", RequiredFields); ("City", DataTypes)] in
  let after := snd (fix_failed_rows pd (typist "v" false) [0] rules fix_frame) in
  fst (df_loc_cell 0 "City" fix_frame) = Ok (Str "keep")
  /\ fst (df_loc_cell 0 "City" after) = Ok NaN
  /\ fst (df_loc_cell 0 "Name" after) = Ok (Str "v")
  /\ find_row 1 (rows after) = find_row 1 (rows fix_frame).
Proof.
  intros pd. repeat split; reflexivity.
Qed.

(** ** The main loop *)

Lemma fix_failed_rows_nil : forall pd op rules d,
  fix_failed_rows pd op [] rules d = (Ok [], d).
Proof. reflexivity. Qed.

(** One turn of the loop that starts with [failed_rows] bound to the
    empty list: the frame afterwards is the one before or the one
    loaded again, and [failed_rows] is again bound to the empty list. *)
Lemma loop_body_empty : forall pd op f k l r l',
  failed_rows l = Some [] ->
  loop_body pd op f k l = (r, l') ->
  (df l' = df l \/ load_data f = Ok (df l')) /\ failed_rows l' = Some [].
Proof.
  intros pd op f k [d rules fr w] r l' Hfr H. simpl in Hfr. subst fr.
  unfold loop_body in H.
  unfold bind, read_failed_rows, get_locals, on_df, set_failed_rows in H.
  simpl in H. unfold ret in H at 1. simpl in H.
  destruct (button_save op k && checkbox_confirm op k);
    unfold export_validation_results, ret in H; simpl in H;
    destruct (checkbox_confirm op k); simpl in H;
    try destruct (checkbox_export op k); simpl in H;
    unfold lift, set_df, set_validation_rules in H; simpl in H;
    try destruct (load_data f) as [d0|e] eqn:L; simpl in H;
    repeat match type of H with
           | context [validate_data ?p ?r ?x] =>
               let E := fresh "E" in
               destruct (validate_data p r x) as [[v|e'] d1] eqn:E;
               apply validate_data_inv in E; subst d1; simpl in H
           end;
    inversion H; subst; simpl; auto.
Qed.

Lemma main_loop_empty : forall pd op f fuel k l r l',
  failed_rows l = Some [] ->
  main_loop pd op f fuel k l = (r, l') ->
  df l' = df l \/ load_data f = Ok (df l').
Proof.
  intros pd op f fuel. induction fuel as [|fuel IH]; intros k l r l' Hfr H;
    simpl in H.
  - unfold ret in H. inversion H; subst. now left.
  - unfold bind in H.
    destruct (loop_body pd op f k l) as [[u|e] l1] eqn:E;
      apply loop_body_empty in E; try assumption; destruct E as [Hd Hf].
    + apply IH in H; [|assumption].
      destruct H as [H|H]; [|now right].
      rewrite H. exact Hd.
    + inversion H; subst. exact Hd.
Qed.

Lemma main_first_turn : forall pd op f fuel d failing d',
  load_data f = Ok d ->
  validate_data pd (get_validation_rules (selectbox op 0) d) d = (Ok failing, d') ->
  main pd op (Some f) (S fuel)
  = (Raise UnboundLocalError,
     Some (mkLocals d (get_validation_rules (selectbox op 0) d) None [])).
Proof.
  intros pd op f fuel d failing d' L V.
  pose proof (validate_data_inv _ _ _ _ _ V) as ->.
  unfold main. rewrite L. unfold bind at 1, on_df at 1. simpl.
  rewrite V. reflexivity.
Qed.

(** C4. The end-to-end scenario of the spec does not reach the revert.
    A CSV file with one missing value under "Required fields" is
    loaded and validated; an operator who would type a value and then
    decline is never asked: the first turn of the loop reads
    [failed_rows] before anything was assigned to it and [main] ends
    with [UnboundLocalError], however many turns it is given. *)
Theorem C4_decline_scenario_raises_before_any_fix : forall pd fuel,
  load_data required_upload = Ok required_frame
  /\ fst (validate_data pd [("Name", RequiredFields)] required_frame) = Ok [0]
  /\ main pd (typist "z" false) (Some required_upload) (S fuel)
     = (Raise UnboundLocalError,
        Some (mkLocals required_frame [("Name", RequiredFields)] None [])).
Proof.
  intros pd fuel. repeat split; reflexivity.
Qed.

(** C10. The failing list of [validate_data] never reaches the fix
    step.  Once the file is loaded and the first validation has
    returned, its value is dropped, [failed_rows] is still unbound and
    the first turn of the loop raises [UnboundLocalError] at the call
    of [fix_failed_rows]; a turn that completes leaves [failed_rows]
    bound to the empty list; on the empty list the fix step changes
    nothing; so from a state where [failed_rows] is unbound or empty
    the frame is at every later point the one the loop started with or
    the one loaded again from the file. *)
Theorem C10_fix_step_never_receives_failing_set : forall pd op f,
  (forall fuel d failing d',
     load_data f = Ok d ->
     validate_data pd (get_validation_rules (selectbox op 0) d) d = (Ok failing, d') ->
     main pd op (Some f) (S fuel)
     = (Raise UnboundLocalError,
        Some (mkLocals d (get_validation_rules (selectbox op 0) d) None [])))
  /\ (forall k l l', loop_body pd op f k l = (Ok tt, l') -> failed_rows l' = Some [])
  /\ (forall rules d, fix_failed_rows pd op [] rules d = (Ok [], d))
  /\ (forall fuel k l r l',
        failed_rows l = None \/ failed_rows l = Some [] ->
        main_loop pd op f fuel k l = (r, l') ->
        df l' = df l \/ load_data f = Ok (df l')).
Proof.
  intros pd op f. split; [|split; [|split]].
  - intros fuel d failing d'. apply main_first_turn.
  - intros k l l' H.
    destruct (failed_rows l) as [fr|] eqn:F.
    + unfold loop_body in H.
      repeat (unfold bind in H at 1;
              match type of H with
              | (let (_, _) := ?m ?s in _) = _ =>
                  destruct (m s) as [[?|?] ?]; try discriminate
              end).
      unfold set_failed_rows in H. inversion H. reflexivity.
    + unfold loop_body, bind, read_failed_rows in H. rewrite F in H.
      discriminate.
  - intros rules d. reflexivity.
  - intros fuel k l r l' [F|F] H.
    + destruct fuel as [|fuel]; simpl in H.
      * unfold ret in H. inversion H. now left.
      * destruct l as [d0 rules0 fr0 w0]. simpl in F. subst fr0.
        unfold bind, loop_body, read_failed_rows in H. simpl in H.
        inversion H. now left.
    + eapply main_loop_empty; eassumption.
Qed.

Lemma C10_first_turn_witness :
  let op := typist "z" false in
  let rules := [("Name", RequiredFields)] in
  let bound := mkLocals required_frame rules (Some []) [] in
  load_data required_upload = Ok required_frame
  /\ main iso op (Some required_upload) 1
     = (Raise UnboundLocalError, Some (mkLocals required_frame rules None []))
  /\ loop_body iso op required_upload 0 bound = (Ok tt, bound)
  /\ failed_rows bound = Some []
  /\ main_loop iso op required_upload 2 0 bound = (Ok Running, bound)
  /\ (df bound = df bound \/ load_data required_upload = Ok (df bound)).
Proof.
  intros op rules bound.
  pose proof (C10_fix_step_never_receives_failing_set iso op required_upload)
    as [Hfirst [Hreset [_ Hframe]]].
  split; [reflexivity|]. split; [|split; [reflexivity|split; [|split]]].
  - exact (Hfirst 0 required_frame [0] required_frame eq_refl eq_refl).
  - exact (Hreset 0 bound bound eq_refl).
  - reflexivity.
  - exact (Hframe 2 0 bound (Ok Running) bound (or_intror eq_refl) eq_refl).
Defined.

(** ** The dependency rule *)

Lemma any_map_true : forall (A : Type) (f : A -> bool) (l : list A),
  any (map f l) = true <-> Exists (fun x => f x = true) l.
Proof.
  intros A f l. unfold any. induction l as [|x l IH]; simpl.
  - split; [discriminate|intros H; inversion H].
  - rewrite orb_true_iff, IH. split.
    + intros [H|H]; [now left|now right].
    + intros H. inversion H; subst; auto.
Qed.

Lemma validate_row_loop_app : forall pd rules pre post row,
  validate_row_loop pd rules (pre ++ post) row
  = match validate_row_loop pd rules pre row with
    | Ok true => validate_row_loop pd rules post row
    | other => other
    end.
Proof.
  intros pd rules pre post row. induction pre as [|[col rule] pre IH]; simpl.
  - reflexivity.
  - destruct (validate_row_rule pd rules row col rule) as [[|]|e];
      [exact IH|reflexivity|reflexivity].
Qed.

Lemma dict_in_set : forall (V : Type) (d : dict V) k k' v,
  dict_in k (dict_set d k' v) = String.eqb k' k || dict_in k d.
Proof.
  intros V d k k' v. unfold dict_in.
  induction d as [|[k0 v0] d IH]; simpl.
  - destruct (String.eqb k' k); reflexivity.
  - destruct (String.eqb_spec k0 k') as [->|Hne]; simpl.
    + destruct (String.eqb k' k); reflexivity.
    + destruct (String.eqb k0 k); [symmetry; apply orb_true_r|exact IH].
Qed.

(** The rules asked for a frame have the frame's columns as keys. *)
Lemma get_validation_rules_in : forall select d k,
  dict_in k (get_validation_rules select d) = true <-> In k (columns d).
Proof.
  intros select d k. unfold get_validation_rules.
  assert (G : forall cols acc,
             dict_in k (fold_left
                          (fun rules col => dict_set rules col (select col))
                          cols acc) = true
             <-> dict_in k acc = true \/ In k cols).
  { induction cols as [|c cols IH]; intros acc; simpl.
    - tauto.
    - rewrite IH, dict_in_set, orb_true_iff, String.eqb_eq. tauto. }
  rewrite G. unfold dict_in. simpl. split; [intros [H|H]|auto].
  - discriminate.
  - assumption.
Qed.

(** The two turns of the dependency rule.  With "Start Date" and
    "End Date" both among the rules, a row whose start is not before
    its end makes the turn of [validate_row] return False, and
    [validate_row] with it when the rules before pass; the turn of the
    full run adds the position of the rule to its list.  With either
    of the two absent the rule does nothing, for every row and every
    frame: no failure and no exception; the rules being asked column
    by column, that is the case whenever the frame lacks one of the two
    columns. *)
Lemma dependency_rule_turns : forall pd rules col,
  (dict_in "Start Date" rules = true ->
   dict_in "End Date" rules = true ->
   (forall row s e,
      to_datetime_cell pd row "Start Date" = Ok s ->
      to_datetime_cell pd row "End Date" = Ok e ->
      timestamp_ge s e = true ->
      validate_row_rule pd rules row col Dependencies = Ok false
      /\ forall pre post,
           rules = pre ++ (col, Dependencies) :: post ->
           validate_row_loop pd rules pre row = Ok true ->
           validate_row pd row rules = Ok false)
   /\ (forall idx fr d starts ends,
         to_datetime_column pd "Start Date" d = (Ok starts, d) ->
         to_datetime_column pd "End Date" d = (Ok ends, d) ->
         Exists (fun se => timestamp_ge (fst se) (snd se) = true)
           (combine starts ends) ->
         validate_column pd rules idx col Dependencies fr d
         = (Ok (fr ++ [idx]), d)))
  /\ (dict_in "Start Date" rules = false \/ dict_in "End Date" rules = false ->
      (forall row, validate_row_rule pd rules row col Dependencies = Ok true)
      /\ (forall idx fr d,
            validate_column pd rules idx col Dependencies fr d = (Ok fr, d)))
  /\ (forall select d,
        ~ In "Start Date" (columns d) \/ ~ In "End Date" (columns d) ->
        (forall row,
           validate_row_rule pd (get_validation_rules select d) row col
             Dependencies = Ok true)
        /\ (forall idx fr,
              validate_column pd (get_validation_rules select d) idx col
                Dependencies fr d = (Ok fr, d))).
Proof.
  intros pd rules col.
  assert (Absent : forall rules',
            dict_in "Start Date" rules' = false
            \/ dict_in "End Date" rules' = false ->
            (forall row,
               validate_row_rule pd rules' row col Dependencies = Ok true)
            /\ (forall idx fr d,
                  validate_column pd rules' idx col Dependencies fr d
                  = (Ok fr, d))).
  { intros rules' Habs.
    assert (F : dict_in "Start Date" rules' && dict_in "End Date" rules'
                = false).
    { destruct Habs as [-> | ->]; [reflexivity|apply andb_false_r]. }
    split.
    - intros row. simpl. rewrite F. reflexivity.
    - intros idx fr d. simpl. rewrite F. reflexivity. }
  split; [|split; [apply Absent|]].
  - intros Hs He. split.
    + intros row s e Ps Pe Hge.
      assert (T : validate_row_rule pd rules row col Dependencies = Ok false).
      { simpl. rewrite Hs, He. simpl. rewrite Ps, Pe, Hge. reflexivity. }
      split; [exact T|].
      intros pre post Hr Hpre. unfold validate_row.
      rewrite Hr at 2. rewrite validate_row_loop_app, Hpre.
      cbn [validate_row_loop]. rewrite T. reflexivity.
    + intros idx fr d starts ends Ps Pe Hex.
      simpl. rewrite Hs, He. simpl. unfold bind. rewrite Ps, Pe.
      apply any_map_true in Hex. rewrite Hex. reflexivity.
  - intros select d Hcols.
    destruct (Absent (get_validation_rules select d)) as [Hr Hc].
    + destruct Hcols as [Hn|Hn]; [left|right];
        apply not_true_is_false; intros Hin;
        apply get_validation_rules_in in Hin; contradiction.
    + split; [exact Hr|]. intros idx fr. apply Hc.
Qed.

(** C7. The full run does not report the row that violates the
    dependency.  On two rows of which only row 1 has its start after
    its end, with the rule declared on Start Date, the run returns
    [0], the position of the rule, while the row-by-row check fails
    row 1 and passes row 0.  On the one row of the spec's example with
    the rule declared on End Date, the second column, the position 1
    is past the last row and the run ends in [IndexError] at the
    display of the failed entries.  With End Date not among the rules
    the same row passes. *)
Theorem C7_dependency_failure_reported_under_rule_position :
  let rules := [("Start Date", Dependencies); ("End Date", DataTypes)] in
  validate_data iso rules late_violation_frame = (Ok [0], late_violation_frame)
  /\ ~ In 1 [0]
  /\ revalidate_rows iso rules [0; 1] [] late_violation_frame
     = (Ok [1], late_violation_frame)
  /\ validate_data iso [("Start Date", DataTypes); ("End Date", Dependencies)]
       dates_frame
     = (Raise IndexError, dates_frame)
  /\ validate_data iso [("Start Date", Dependencies)] dates_frame
     = (Ok [], dates_frame)
  /\ revalidate_rows iso [("Start Date", Dependencies)] [0] [] dates_frame
     = (Ok [], dates_frame).
Proof.
  intros rules. split; [reflexivity|]. split.
  - simpl. intros [H|[]]. discriminate.
  - repeat split; reflexivity.
Qed.

(** ** Exceptions *)

Lemma enumerate_from_In : forall (A : Type) (xs : list A) (x : A) n,
  In x xs -> exists i, In (i, x) (enumerate_from n xs).
Proof.
  intros A xs x. induction xs as [|y xs IH]; intros n H; simpl in *.
  - contradiction.
  - destruct H as [->|H].
    + exists n. now left.
    + destruct (IH (S n) H) as [i Hi]. exists i. now right.
Qed.

(** A turn that raises, whatever the list it is given, makes the whole
    loop raise: no turn catches anything. *)
Lemma validate_data_loop_raises : forall pd rules items fr d idx col rule,
  In (idx, (col, rule)) items ->
  (forall fr', exists e,
      validate_column pd rules idx col rule fr' d = (Raise e, d)) ->
  exists e, validate_data_loop pd rules items fr d = (Raise e, d).
Proof.
  intros pd rules items. induction items as [|[i [c r]] items IH];
    intros fr d idx col rule Hin Hraise; simpl in *.
  - contradiction.
  - unfold bind.
    destruct (validate_column pd rules i c r fr d) as [[fr1|e] d1] eqn:E;
      pose proof (validate_column_inv _ _ _ _ _ _ _ _ _ E); subst d1.
    + destruct Hin as [Heq|Hin].
      * inversion Heq; subst. destruct (Hraise fr) as [e He]. congruence.
      * eapply IH; eassumption.
    + exists e. reflexivity.
Qed.

Lemma dependency_turn_raises : forall pd rules idx col fr d starts ends,
  dict_in "Start Date" rules = true ->
  dict_in "End Date" rules = true ->
  df_getitem "Start Date" d = (Ok starts, d) ->
  df_getitem "End Date" d = (Ok ends, d) ->
  to_datetime_series pd starts = None \/ to_datetime_series pd ends = None ->
  validate_column pd rules idx col Dependencies fr d = (Raise ValueError, d).
Proof.
  intros pd rules idx col fr d starts ends Hs He Cs Ce Hbad.
  simpl. rewrite Hs, He. simpl.
  unfold bind, to_datetime_column, bind. rewrite Cs.
  destruct (to_datetime_series pd starts) as [ss|]; [|reflexivity].
  unfold ret at 1. rewrite Ce.
  destruct Hbad as [Hbad|Hbad]; [discriminate|]. rewrite Hbad. reflexivity.
Qed.

(** C8, as the code has it. Nothing in the source catches an
    exception, so a cell is held back only where the code converts it
    itself.  In the full run the turn of a "Pattern matching" rule on
    Email Address turns every cell into text: when the column holds a
    missing value the turn does not raise, it records a failure of
    the rule, and the loop goes on to the remaining rules with that
    record.  A date that pandas refuses, in Start Date or in End Date,
    ends the run: with a dependency rule among the rules and both
    columns declared, [validate_data] raises and returns no list; in
    [validate_row] the turn of the rule raises [ValueError] for a
    refused start or end date, and so does [validate_row] when the
    rules before it pass. *)
Theorem C8_null_cell_fails_but_refused_date_aborts : forall pd rules d,
  (forall idx fr c,
     df_getitem "Email Address" d = (Ok c, d) ->
     In NaN c ->
     validate_column pd rules idx "Email Address" PatternMatching fr d
     = (Ok (fr ++ [idx]), d)
     /\ forall items,
          validate_data_loop pd rules
            ((idx, ("Email Address", PatternMatching)) :: items) fr d
          = validate_data_loop pd rules items (fr ++ [idx]) d)
  /\ (forall col starts ends,
        In (col, Dependencies) rules ->
        dict_in "Start Date" rules = true ->
        dict_in "End Date" rules = true ->
        df_getitem "Start Date" d = (Ok starts, d) ->
        df_getitem "End Date" d = (Ok ends, d) ->
        to_datetime_series pd starts = None \/ to_datetime_series pd ends = None ->
        exists e, validate_data pd rules d = (Raise e, d))
  /\ (forall col row vs ve,
        dict_in "Start Date" rules = true ->
        dict_in "End Date" rules = true ->
        dict_get row "Start Date" = Some vs ->
        dict_get row "End Date" = Some ve ->
        to_datetime pd vs = None \/ to_datetime pd ve = None ->
        validate_row_rule pd rules row col Dependencies = Raise ValueError
        /\ forall pre post,
             rules = pre ++ (col, Dependencies) :: post ->
             validate_row_loop pd rules pre row = Ok true ->
             validate_row pd row rules = Raise ValueError).
Proof.
  intros pd rules d. split; [|split].
  - intros idx fr c Hc Hin.
    assert (T : validate_column pd rules idx "Email Address" PatternMatching
                  fr d = (Ok (fr ++ [idx]), d)).
    { simpl. unfold bind. rewrite Hc.
      assert (A : any (map (fun x =>
                    negb (re_match_anchored email_pattern (str x))) c) = true).
      { apply any_map_true. apply Exists_exists. exists NaN.
        split; [assumption|reflexivity]. }
      rewrite A. reflexivity. }
    split; [exact T|].
    intros items. cbn [validate_data_loop]. unfold bind at 1.
    rewrite T. reflexivity.
  - intros col starts ends Hin Hs He Cs Ce Hbad.
    destruct (enumerate_from_In _ _ _ 0 Hin) as [idx Hidx].
    destruct (validate_data_loop_raises pd rules (enumerate rules) [] d
                idx col Dependencies Hidx) as [e E].
    { intros fr'. exists ValueError.
      eapply dependency_turn_raises; eassumption. }
    exists e. unfold validate_data, bind. rewrite E. reflexivity.
  - intros col row vs ve Hs He Hvs Hve Hbad.
    assert (T : validate_row_rule pd rules row col Dependencies
                = Raise ValueError).
    { simpl. rewrite Hs, He. simpl.
      unfold to_datetime_cell, series_getitem. rewrite Hvs, Hve.
      destruct (to_datetime pd vs) as [ts|]; [|reflexivity].
      destruct Hbad as [Hbad|Hbad]; [discriminate|].
      rewrite Hbad. reflexivity. }
    split; [exact T|].
    intros pre post Hr Hpre. unfold validate_row.
    rewrite Hr at 2. rewrite validate_row_loop_app, Hpre.
    cbn [validate_row_loop]. rewrite T. reflexivity.
Qed.

Lemma C8_refused_date_witness :
  let rules := [("Start Date", Dependencies); ("End Date", RequiredFields)] in
  let row := [("Start Date", Str "2024-01-01"); ("End Date", Str "not a date")] in
  let mail := [("Email Address", PatternMatching); ("Name", RequiredFields)] in
  df_getitem "Start Date" bad_dates_frame
  = (Ok [Str "not a date"], bad_dates_frame)
  /\ to_datetime_series iso [Str "not a date"] = None
  /\ (exists e, validate_data iso rules bad_dates_frame
                = (Raise e, bad_dates_frame))
  /\ validate_row_rule iso rules row "Start Date" Dependencies
     = Raise ValueError
  /\ validate_row iso row rules = Raise ValueError
  /\ validate_column iso mail 0 "Email Address" PatternMatching []
       missing_email_frame
     = (Ok [0], missing_email_frame)
  /\ validate_data_loop iso mail (enumerate mail) [] missing_email_frame
     = validate_data_loop iso mail [(1, ("Name", RequiredFields))] [0]
         missing_email_frame.
Proof.
  intros rules row mail.
  pose proof (C8_null_cell_fails_but_refused_date_aborts iso rules
                bad_dates_frame) as [_ [Hrun Hrow]].
  pose proof (C8_null_cell_fails_but_refused_date_aborts iso mail
                missing_email_frame) as [Hnull _].
  destruct (Hrow "Start Date" row (Str "2024-01-01") (Str "not a date")
              eq_refl eq_refl eq_refl eq_refl (or_intror eq_refl))
    as [Hturn Hall].
  destruct (Hnull 0 [] [Str "a@b.com"; NaN] eq_refl
              (or_intror (or_introl eq_refl))) as [Hstep Hloop].
  split; [reflexivity|]. split; [reflexivity|].
  split; [|split; [|split; [|split]]].
  - apply (Hrun "Start Date" [Str "not a date"] [Str "2024-01-01"]);
      [left; reflexivity|reflexivity|reflexivity|reflexivity|reflexivity
      |left; reflexivity].
  - exact Hturn.
  - exact (Hall [] [("End Date", RequiredFields)] eq_refl eq_refl).
  - exact Hstep.
  - exact (Hloop [(1, ("Name", RequiredFields))]).
Defined.

(** C8, as the spec states it, fails: a start date that cannot be read
    is not reported as a failure of its row, it ends the full run with
    [ValueError] before the rule of the next column is looked at, and
    it ends the re-validation of the row in the same way. *)
Lemma C8_counterexample :
  let rules := [("Start Date", Dependencies); ("End Date", RequiredFields)] in
  validate_data iso rules bad_dates_frame = (Raise ValueError, bad_dates_frame)
  /\ revalidate_rows iso rules [0] [] bad_dates_frame
     = (Raise ValueError, bad_dates_frame).
Proof.
  intros rules. split; reflexivity.
Qed.

(** ** Matching by derivatives decides the language *)

Lemma lang_cat_inv : forall r1 r2 s,
  lang (Cat r1 r2) s ->
  exists s1 s2, s = s1 ++ s2 /\ lang r1 s1 /\ lang r2 s2.
Proof.
  intros r1 r2 s H. inversion H; subst. eauto.
Qed.

Lemma lang_alt_inv : forall r1 r2 s,
  lang (Alt r1 r2) s -> lang r1 s \/ lang r2 s.
Proof.
  intros r1 r2 s H. inversion H; subst; auto.
Qed.

Lemma nullable_lang : forall r, nullable r = true <-> lang r [].
Proof.
  induction r as [| |p|r1 IH1 r2 IH2|r1 IH1 r2 IH2|r IH]; simpl.
  - split; [discriminate|intros H; inversion H].
  - split; [intros _; constructor|reflexivity].
  - split; [discriminate|intros H; inversion H].
  - rewrite andb_true_iff, IH1, IH2. split.
    + intros [H1 H2]. change (@nil ascii) with (@nil ascii ++ []).
      now constructor.
    + intros H. apply lang_cat_inv in H.
      destruct H as [s1 [s2 [E [H1 H2]]]].
      symmetry in E. apply app_eq_nil in E. destruct E; subst. auto.
  - rewrite orb_true_iff, IH1, IH2. split.
    + intros [H|H]; [now apply lang_alt_l|now apply lang_alt_r].
    + apply lang_alt_inv.
  - split; [intros _; constructor|reflexivity].
Qed.

Lemma lang_star_cons_inv : forall r a s,
  lang (Star r) (a :: s) ->
  exists s1 s2, s = s1 ++ s2 /\ lang r (a :: s1) /\ lang (Star r) s2.
Proof.
  intros r a s H.
  remember (Star r) as r' eqn:Er. remember (a :: s) as w eqn:Ew.
  revert s Ew.
  induction H as [| | | | | |r0 t1 t2 H1 _ H2 IH2]; intros s' Ew;
    try discriminate.
  inversion Er; subst r0.
  destruct t1 as [|b t1]; simpl in Ew.
  - apply IH2; [reflexivity|assumption].
  - inversion Ew; subst. exists t1, t2. auto.
Qed.

Lemma deriv_lang : forall r a s, lang (deriv a r) s <-> lang r (a :: s).
Proof.
  induction r as [| |p|r1 IH1 r2 IH2|r1 IH1 r2 IH2|r IH]; intros a s; simpl.
  - split; intros H; inversion H.
  - split; intros H; inversion H.
  - destruct (p a) eqn:P; split; intros H; inversion H; subst.
    + now constructor.
    + constructor.
    + congruence.
  - assert (L : lang (Cat (deriv a r1) r2) s ->
                lang (Cat r1 r2) (a :: s)).
    { intros H. apply lang_cat_inv in H.
      destruct H as [s1 [s2 [-> [H1 H2]]]].
      change (a :: s1 ++ s2) with ((a :: s1) ++ s2).
      constructor; [now apply IH1|assumption]. }
    assert (R : lang (Cat r1 r2) (a :: s) ->
                lang (Cat (deriv a r1) r2) s
                \/ (lang r1 [] /\ lang (deriv a r2) s)).
    { intros H. apply lang_cat_inv in H.
      destruct H as [s1 [s2 [E [H1 H2]]]].
      destruct s1 as [|b s1]; simpl in E.
      - subst s2. right. split; [assumption|now apply IH2].
      - inversion E; subst. left. constructor; [now apply IH1|assumption]. }
    destruct (nullable r1) eqn:N.
    + split.
      * intros H. apply lang_alt_inv in H. destruct H as [H|H];
          [now apply L|].
        change (a :: s) with ([] ++ a :: s).
        constructor; [now apply nullable_lang|now apply IH2].
      * intros H. destruct (R H) as [H'|[_ H']];
          [now apply lang_alt_l|now apply lang_alt_r].
    + split; [exact L|].
      intros H. destruct (R H) as [H'|[H' _]]; [assumption|].
      apply nullable_lang in H'. congruence.
  - split; intros H; apply lang_alt_inv in H; destruct H as [H|H].
    + apply lang_alt_l. now apply IH1.
    + apply lang_alt_r. now apply IH2.
    + apply lang_alt_l. now apply IH1.
    + apply lang_alt_r. now apply IH2.
  - split.
    + intros H. apply lang_cat_inv in H.
      destruct H as [s1 [s2 [-> [H1 H2]]]].
      change (a :: s1 ++ s2) with ((a :: s1) ++ s2).
      constructor; [now apply IH|assumption].
    + intros H. apply lang_star_cons_inv in H.
      destruct H as [s1 [s2 [-> [H1 H2]]]].
      constructor; [now apply IH|assumption].
Qed.

Lemma matches_lang : forall s r, matches r s = true <-> lang r s.
Proof.
  induction s as [|a s IH]; intros r; simpl.
  - apply nullable_lang.
  - rewrite IH. apply deriv_lang.
Qed.

Lemma re_match_anchored_email : forall s,
  re_match_anchored email_pattern s = true <-> full_match_or_final_newline s.
Proof.
  intros s. unfold re_match_anchored, full_match_or_final_newline.
  rewrite orb_true_iff, matches_lang.
  set (cs := list_ascii_of_string s).
  split; (intros [H|H]; [now left|right]).
  - destruct (rev cs) as [|c before] eqn:E; [discriminate|].
    apply andb_true_iff in H. destruct H as [Hc Hm].
    apply Ascii.eqb_eq in Hc. subst c.
    exists (rev before). split; [|now apply matches_lang].
    rewrite <- (rev_involutive cs), E. reflexivity.
  - destruct H as [before [E Hl]]. rewrite E, rev_app_distr. simpl.
    rewrite rev_involutive. now apply matches_lang.
Qed.

(** ** The pattern rule *)

Lemma any_map_false : forall (A : Type) (f : A -> bool) (l : list A),
  any (map f l) = false <-> forall x, In x l -> f x = false.
Proof.
  intros A f l. unfold any. induction l as [|x l IH]; simpl.
  - split; [intros _ x []|reflexivity].
  - rewrite orb_false_iff, IH. split.
    + intros [Hx Hl] y [<-|Hy]; auto.
    + intros H. split; [apply H; now left|intros y Hy; apply H; now right].
Qed.

(** C6. Two ways the pattern rule departs from a full match reported
    by row.  "a@b.com" is a full match of the pattern and "a@b.com"
    followed by a newline is not, yet that cell passes both the
    per-row check and the full run: the [$] that closes the pattern
    also holds in front of a final newline.  And on Email Address =
    ["a@b.com", "bad"] the full run returns [0], the position of the
    rule, not row 1, the row of "bad", which is the row the row-by-row
    check fails. *)
Theorem C6_pattern_rule_passes_final_newline_and_reports_position : forall pd,
  let rules := [("Email Address", PatternMatching)] in
  fullmatch email_pattern "a@b.com" = true
  /\ fullmatch email_pattern email_then_newline = false
  /\ validate_row pd [("Email Address", Str email_then_newline)] rules
     = Ok true
  /\ validate_data pd rules newline_email_frame = (Ok [], newline_email_frame)
  /\ validate_data pd rules email_frame = (Ok [0], email_frame)
  /\ ~ In 1 [0]
  /\ revalidate_rows pd rules [0; 1] [] email_frame = (Ok [1], email_frame).
Proof.
  intros pd rules.
  split; [reflexivity|]. split; [reflexivity|]. split; [reflexivity|].
  split; [reflexivity|]. split; [reflexivity|]. split; [|reflexivity].
  simpl. intros [H|[]]. discriminate.
Qed.

(** * Further properties of the code *)

(** ** The list of the full run *)

Lemma validate_data_loop_extends : forall pd rules items n fr d fr' d',
  validate_data_loop pd rules (enumerate_from n items) fr d = (Ok fr', d') ->
  exists extra,
    fr' = fr ++ extra
    /\ StronglySorted lt extra
    /\ Forall (fun i => n <= i < n + List.length items) extra.
Proof.
  intros pd rules items. induction items as [|[col rule] items IH];
    intros n fr d fr' d' H; simpl in H.
  - unfold ret in H. inversion H; subst. exists [].
    rewrite app_nil_r. repeat split; constructor.
  - unfold bind in H.
    destruct (validate_column pd rules n col rule fr d) as [[fr1|e] d1] eqn:E;
      [|discriminate].
    apply validate_column_entries in E.
    destruct (IH _ _ _ _ _ H) as [extra [-> [Hs Hb]]].
    assert (Hb' : Forall (fun i => n <= i < n + S (List.length items)) extra).
    { eapply Forall_impl; [|exact Hb]. simpl. intros i Hi. lia. }
    destruct E as [->| ->].
    + exists extra. auto.
    + exists (n :: extra). rewrite <- app_assoc. simpl.
      repeat split.
      * constructor; [assumption|].
        eapply Forall_impl; [|exact Hb]. simpl. intros i Hi. lia.
      * constructor; [simpl; lia|exact Hb'].
Qed.

(** X1. Whatever the rules and the frame, a list that [validate_data]
    returns is strictly increasing, each entry is the position of a
    rule, and each entry is below the number of rows of the frame,
    the display of the failed entries having gone through
    [df.iloc]. *)
Theorem validate_data_list_shape : forall pd rules d fr d',
  validate_data pd rules d = (Ok fr, d') ->
  StronglySorted lt fr
  /\ Forall (fun i => i < List.length rules /\ i < List.length (rows d)) fr.
Proof.
  intros pd rules d fr d'. unfold validate_data, bind.
  destruct (validate_data_loop pd rules (enumerate rules) [] d)
    as [[fr0|e] d1] eqn:E; [|discriminate].
  pose proof (validate_data_loop_inv _ _ _ _ _ _ _ E); subst d1.
  unfold enumerate in E. apply validate_data_loop_extends in E.
  destruct E as [extra [-> [Hs Hb]]]. simpl.
  intros H.
  assert (Hfr : fr = extra
                /\ (extra = [] \/ forallb (fun p => p <? List.length (rows d))
                                    extra = true)).
  { destruct extra as [|x extra]; simpl in H.
    - unfold ret in H. inversion H. auto.
    - unfold df_iloc in H.
      destruct (forallb (fun p => p <? List.length (rows d)) (x :: extra))
        eqn:F; [|discriminate].
      unfold ret in H. inversion H. auto. }
  destruct Hfr as [-> Hrows]. split; [assumption|].
  apply Forall_forall. intros i Hi. split.
  - rewrite Forall_forall in Hb. specialize (Hb i Hi). simpl in Hb. lia.
  - destruct Hrows as [->|F]; [contradiction|].
    rewrite forallb_forall in F. specialize (F i Hi).
    now apply Nat.ltb_lt in F.
Qed.

Lemma validate_data_list_shape_witness :
  let rules := [("Start Date", RequiredFields); ("End Date", Dependencies)] in
  let d := frame_of_columns
             [("Start Date", [NaN; Str "2024-01-02"]);
              ("End Date", [Str "2024-01-01"; Str "2024-01-01"])] in
  validate_data iso rules d = (Ok [0; 1], d)
  /\ StronglySorted lt [0; 1]
  /\ Forall (fun i => i < 2 /\ i < 2) [0; 1].
Proof.
  intros rules d. split; [reflexivity|].
  exact (validate_data_list_shape iso rules d [0; 1] d eq_refl).
Defined.

(** ** Rules that test nothing *)

Lemma no_branch_column : forall pd rules idx col rule fr d,
  no_branch col rule = true ->
  validate_column pd rules idx col rule fr d = (Ok fr, d).
Proof.
  intros pd rules idx col rule fr d H.
  destruct rule; simpl in *; try discriminate; try reflexivity.
  - apply negb_true_iff in H. rewrite H. reflexivity.
  - apply negb_true_iff in H. rewrite H. reflexivity.
Qed.

Lemma no_branch_row : forall pd rules row col rule,
  no_branch col rule = true ->
  validate_row_rule pd rules row col rule = Ok true.
Proof.
  intros pd rules row col rule H.
  destruct rule; simpl in *; try discriminate; try reflexivity.
  - apply negb_true_iff in H. rewrite H. reflexivity.
  - apply negb_true_iff in H. rewrite H. reflexivity.
Qed.

(** X2. Rules that reach no branch check nothing.  When every rule is
    one of "Data types", "String length", "Numeric ranges",
    "Categorical values", "Date/time constraints", or "Pattern
    matching" on a column not named Email Address, or "Custom
    validation functions" on a column not named Phone Number, the full
    run returns the empty list on every frame, also on one that lacks
    the columns, and [validate_row] returns True on every row. *)
Theorem rules_without_branch_accept_everything : forall pd rules,
  forallb (fun cr => no_branch (fst cr) (snd cr)) rules = true ->
  (forall d, validate_data pd rules d = (Ok [], d))
  /\ (forall row, validate_row pd row rules = Ok true).
Proof.
  intros pd rules H. split.
  - intros d. unfold validate_data, bind, enumerate.
    assert (L : forall items n fr,
               forallb (fun cr => no_branch (fst cr) (snd cr)) items = true ->
               validate_data_loop pd rules (enumerate_from n items) fr d
               = (Ok fr, d)).
    { induction items as [|[col rule] items IH]; intros n fr Hi; simpl in *.
      - reflexivity.
      - apply andb_true_iff in Hi. destruct Hi as [Hc Hi].
        unfold bind. rewrite (no_branch_column pd rules n col rule fr d Hc).
        apply IH. exact Hi. }
    rewrite (L rules 0 [] H). reflexivity.
  - intros row. unfold validate_row.
    assert (L : forall items,
               forallb (fun cr => no_branch (fst cr) (snd cr)) items = true ->
               validate_row_loop pd rules items row = Ok true).
    { induction items as [|[col rule] items IH]; intros Hi; simpl in *.
      - reflexivity.
      - apply andb_true_iff in Hi. destruct Hi as [Hc Hi].
        rewrite (no_branch_row pd rules row col rule Hc). apply IH. exact Hi. }
    apply L. exact H.
Qed.

Lemma rules_without_branch_witness :
  let rules := [("Age", NumericRanges); ("Name", PatternMatching);
                ("Phone", CustomFunctions)] in
  validate_data iso rules email_frame = (Ok [], email_frame)
  /\ validate_row iso [("Age", NaN)] rules = Ok true.
Proof.
  intros rules.
  pose proof (rules_without_branch_accept_everything iso rules eq_refl)
    as [Hd Hr].
  split; [apply Hd|apply Hr].
Defined.

Lemma position_none : forall k ks, position k ks = None <-> ~ In k ks.
Proof.
  intros k ks. induction ks as [|k' ks IH]; simpl.
  - tauto.
  - destruct (String.eqb_spec k' k) as [->|Hne].
    + split; [discriminate|intros H; exfalso; apply H; now left].
    + destruct (position k ks) as [p|]; simpl.
      * split; [discriminate|].
        intros H. exfalso. apply H. right.
        destruct (in_dec string_dec k ks) as [Hin|Hn]; [assumption|].
        apply IH in Hn. discriminate.
      * split; [|reflexivity]. intros _ [H|H]; [congruence|].
        now apply (proj1 IH).
Qed.

Lemma df_getitem_ok : forall col d,
  In col (columns d) -> exists c, df_getitem col d = (Ok c, d).
Proof.
  intros col d Hin. unfold df_getitem.
  destruct (position col (columns d)) as [p|] eqn:P.
  - eauto.
  - apply position_none in P. contradiction.
Qed.

Lemma df_getitem_missing : forall col d,
  ~ In col (columns d) -> df_getitem col d = (Raise KeyError, d).
Proof.
  intros col d Hn. unfold df_getitem.
  apply position_none in Hn. rewrite Hn. reflexivity.
Qed.

Lemma any_map_const_false : forall (A : Type) (l : list A),
  any (map (fun _ => false) l) = false.
Proof.
  intros A l. apply any_map_false. reflexivity.
Qed.

(** X3. The custom rule never reports anything: the phone-number
    check of the source accepts every value.  On a column that the
    frame (or the row) holds the rule leaves the list as it is and the
    row passes; the only thing it can do is raise [KeyError], when it
    is declared for "Phone Number" and the frame or the row has no such
    column. *)
Theorem custom_rule_never_fails : forall pd rules col,
  (forall idx fr d,
     In col (columns d) ->
     validate_column pd rules idx col CustomFunctions fr d = (Ok fr, d))
  /\ (forall row,
        dict_in col row = true ->
        validate_row_rule pd rules row col CustomFunctions = Ok true)
  /\ (forall idx fr d,
        ~ In "Phone Number" (columns d) ->
        validate_column pd rules idx "Phone Number" CustomFunctions fr d
        = (Raise KeyError, d))
  /\ (forall row,
        dict_in "Phone Number" row = false ->
        validate_row_rule pd rules row "Phone Number" CustomFunctions
        = Raise KeyError).
Proof.
  intros pd rules col. split; [|split; [|split]].
  - intros idx fr d Hin. simpl.
    destruct (String.eqb col "Phone Number"); [|reflexivity].
    destruct (df_getitem_ok col d Hin) as [c Hc].
    unfold bind. rewrite Hc.
    unfold custom_phone_number_validation. simpl.
    rewrite any_map_const_false. reflexivity.
  - intros row Hin. simpl.
    destruct (String.eqb col "Phone Number"); [|reflexivity].
    unfold series_getitem. unfold dict_in in Hin.
    destruct (dict_get row col); [reflexivity|discriminate].
  - intros idx fr d Hn. simpl. unfold bind.
    rewrite (df_getitem_missing "Phone Number" d Hn). reflexivity.
  - intros row Hn. simpl. unfold series_getitem. unfold dict_in in Hn.
    destruct (dict_get row "Phone Number"); [discriminate|reflexivity].
Qed.

Lemma custom_rule_witness :
  let d := frame_of_columns [("Phone Number", [Str "12"; NaN; Str "x y"])] in
  validate_column iso [("Phone Number", CustomFunctions)] 0 "Phone Number"
    CustomFunctions [] d = (Ok [], d)
  /\ validate_row_rule iso [] [("Phone Number", NaN)] "Phone Number"
       CustomFunctions = Ok true
  /\ validate_column iso [] 0 "Phone Number" CustomFunctions [] email_frame
     = (Raise KeyError, email_frame)
  /\ validate_row_rule iso [] [("Name", NaN)] "Phone Number" CustomFunctions
     = Raise KeyError.
Proof.
  intros d.
  pose proof (custom_rule_never_fails iso [("Phone Number", CustomFunctions)]
                "Phone Number") as [Hc _].
  pose proof (custom_rule_never_fails iso [] "Phone Number")
    as [_ [Hr [Hck Hrk]]].
  split; [|split; [|split]].
  - apply Hc. left. reflexivity.
  - apply Hr. reflexivity.
  - apply Hck. simpl. intros [H|[]]. discriminate.
  - apply Hrk. reflexivity.
Defined.

(** ** Loading *)

Lemma after_last_dot_dot_free : forall s acc,
  dot_free s = true -> after_last_dot s acc = String.append acc s.
Proof.
  unfold dot_free. induction s as [|c s IH]; intros acc H.
  - clear H. simpl. induction acc as [|a acc IHa]; simpl; congruence.
  - cbn [list_ascii_of_string existsb] in H.
    rewrite negb_true_iff, orb_false_iff in H. destruct H as [Hc Hs].
    cbn [after_last_dot]. rewrite Ascii.eqb_sym in Hc. rewrite Hc.
    rewrite IH by (rewrite Hs; reflexivity).
    clear. induction acc as [|a acc IHa]; simpl; congruence.
Qed.

Lemma after_last_dot_append : forall base ext acc,
  after_last_dot (String.append base (String "." ext)) acc
  = after_last_dot ext EmptyString.
Proof.
  induction base as [|c base IH]; intros ext acc; simpl.
  - reflexivity.
  - destruct (Ascii.eqb c "."); apply IH.
Qed.

(** X4. [load_data] decides by the text after the last dot of the
    file's name, compared as it is written.  For a name that ends in a
    dot and a text [ext] without a dot, the frame read from the file is
    returned exactly when [ext] is "csv", "xlsx" or "json", and the
    script is stopped otherwise; a name without any dot is judged as a
    whole. *)
Theorem load_data_by_extension : forall base ext d,
  dot_free ext = true ->
  load_data (mkUploadedFile (String.append base (String "." ext)) d)
  = (if String.eqb ext "csv" || String.eqb ext "xlsx" || String.eqb ext "json"
     then Ok d else Raise StopException)
  /\ load_data (mkUploadedFile ext d)
     = (if String.eqb ext "csv" || String.eqb ext "xlsx" || String.eqb ext "json"
        then Ok d else Raise StopException).
Proof.
  intros base ext d H. unfold load_data. simpl.
  rewrite after_last_dot_append.
  rewrite (after_last_dot_dot_free ext EmptyString H). simpl.
  destruct (String.eqb ext "csv"); [split; reflexivity|].
  destruct (String.eqb ext "xlsx"); [split; reflexivity|].
  destruct (String.eqb ext "json"); split; reflexivity.
Qed.

Lemma load_data_by_extension_witness :
  load_data (mkUploadedFile "report.2024.xlsx" required_frame) = Ok required_frame
  /\ load_data (mkUploadedFile "report.CSV" required_frame) = Raise StopException
  /\ load_data (mkUploadedFile "json" required_frame) = Ok required_frame.
Proof.
  split; [|split].
  - exact (proj1 (load_data_by_extension "report.2024" "xlsx" required_frame
                    eq_refl)).
  - exact (proj1 (load_data_by_extension "report" "CSV" required_frame eq_refl)).
  - exact (proj2 (load_data_by_extension "x" "json" required_frame eq_refl)).
Defined.

(** ** The rules that are asked for *)

Lemma dict_get_set_same : forall (V : Type) (d : dict V) k v,
  dict_get (dict_set d k v) k = Some v.
Proof.
  intros V d k v. induction d as [|[k0 v0] d IH]; simpl.
  - now rewrite String.eqb_refl.
  - destruct (String.eqb_spec k0 k) as [->|Hne]; simpl.
    + now rewrite String.eqb_refl.
    + destruct (String.eqb_spec k0 k); [congruence|exact IH].
Qed.

Lemma dict_get_set_other : forall (V : Type) (d : dict V) k k' v,
  k' <> k -> dict_get (dict_set d k' v) k = dict_get d k.
Proof.
  intros V d k k' v Hne. induction d as [|[k0 v0] d IH]; simpl.
  - destruct (String.eqb_spec k' k); [congruence|reflexivity].
  - destruct (String.eqb_spec k0 k') as [->|Hne0]; simpl.
    + destruct (String.eqb_spec k' k); [congruence|reflexivity].
    + destruct (String.eqb k0 k); [reflexivity|exact IH].
Qed.

Lemma dict_set_new : forall (V : Type) (d : dict V) k v,
  dict_get d k = None -> dict_set d k v = d ++ [(k, v)].
Proof.
  intros V d k v. induction d as [|[k0 v0] d IH]; simpl; intros H.
  - reflexivity.
  - destruct (String.eqb k0 k); [discriminate|]. now rewrite IH.
Qed.

Lemma dict_get_app_none : forall (V : Type) (d1 d2 : dict V) k,
  dict_get d1 k = None -> dict_get (d1 ++ d2) k = dict_get d2 k.
Proof.
  intros V d1 d2 k. induction d1 as [|[k0 v0] d1 IH]; simpl; intros H.
  - reflexivity.
  - destruct (String.eqb k0 k); [discriminate|]. now apply IH.
Qed.

Lemma get_validation_rules_fold : forall (select : string -> rule_type) cols acc,
  NoDup cols ->
  (forall c, In c cols -> dict_get acc c = None) ->
  fold_left (fun rules col => dict_set rules col (select col)) cols acc
  = acc ++ map (fun c => (c, select c)) cols.
Proof.
  intros select cols. induction cols as [|c cols IH]; intros acc Hnd Hacc;
    simpl.
  - now rewrite app_nil_r.
  - inversion Hnd as [|? ? Hc Hnd']; subst.
    rewrite dict_set_new by (apply Hacc; now left).
    rewrite IH; [now rewrite <- app_assoc|assumption|].
    intros c' Hc'. rewrite dict_get_app_none by (apply Hacc; now right).
    simpl. destruct (String.eqb_spec c c'); [congruence|reflexivity].
Qed.

Lemma get_validation_rules_get_fold : forall (select : string -> rule_type) cols acc k,
  In k cols ->
  dict_get (fold_left (fun rules col => dict_set rules col (select col))
              cols acc) k = Some (select k).
Proof.
  intros select cols. induction cols as [|c cols IH]; intros acc k Hin;
    simpl in *.
  - contradiction.
  - destruct (in_dec string_dec k cols) as [Hk|Hk].
    + now apply IH.
    + destruct Hin as [->|Hin]; [|contradiction].
      clear IH.
      assert (G : forall cs a,
                 ~ In k cs -> dict_get a k = Some (select k) ->
                 dict_get (fold_left
                             (fun rules col => dict_set rules col (select col))
                             cs a) k = Some (select k)).
      { induction cs as [|c cs IHc]; intros a Hn Ha; simpl.
        - exact Ha.
        - apply IHc; [intros H; apply Hn; now right|].
          rewrite dict_get_set_other; [exact Ha|].
          intros ->. apply Hn. now left. }
      apply G; [assumption|apply dict_get_set_same].
Qed.

(** X5. [get_validation_rules] gives every column of the frame the
    rule picked for it, and nothing else: a name is a key exactly when
    it is a column, the rule stored under a column is the one picked
    for it, and when the column names are distinct the items are the
    columns in the order of the frame, so that the position of a rule
    is the position of its column. *)
Theorem get_validation_rules_by_column : forall select d,
  (forall k, dict_in k (get_validation_rules select d) = true
             <-> In k (columns d))
  /\ (forall k, In k (columns d) ->
                dict_get (get_validation_rules select d) k = Some (select k))
  /\ (NoDup (columns d) ->
      get_validation_rules select d
      = map (fun c => (c, select c)) (columns d)).
Proof.
  intros select d. split; [|split].
  - intros k. apply get_validation_rules_in.
  - intros k Hin. unfold get_validation_rules.
    now apply get_validation_rules_get_fold.
  - intros Hnd. unfold get_validation_rules.
    rewrite get_validation_rules_fold; auto.
Qed.

Lemma get_validation_rules_witness :
  let select := fun c => if String.eqb c "Start Date" then Dependencies
                         else RequiredFields in
  dict_get (get_validation_rules select dates_frame) "End Date"
  = Some RequiredFields
  /\ get_validation_rules select dates_frame
     = [("Start Date", Dependencies); ("End Date", RequiredFields)].
Proof.
  intros select.
  pose proof (get_validation_rules_by_column select dates_frame)
    as [_ [Hget Hall]].
  split.
  - apply (Hget "End Date"). right. left. reflexivity.
  - apply Hall.
    constructor; [simpl; intros [H|[]]; discriminate|].
    constructor; [simpl; intros []|constructor].
Defined.

(** ** The fix step, row by row *)

Lemma find_row_set_row_same : forall idx cs rs,
  find_row idx (set_row idx cs rs) = Some cs.
Proof.
  intros idx cs rs. induction rs as [|[l cs'] rs IH]; simpl.
  - now rewrite Nat.eqb_refl.
  - destruct (Nat.eqb_spec l idx) as [->|Hl]; simpl.
    + now rewrite Nat.eqb_refl.
    + destruct (Nat.eqb_spec l idx); [congruence|exact IH].
Qed.

Lemma find_row_set_row_kept : forall idx idx' cs rs,
  find_row idx' rs <> None -> find_row idx' (set_row idx cs rs) <> None.
Proof.
  intros idx idx' cs rs H.
  destruct (Nat.eq_dec idx' idx) as [->|Hne].
  - rewrite find_row_set_row_same. discriminate.
  - now rewrite find_row_set_row_other.
Qed.

Lemma fix_failed_rows_loop_labels : forall pd op rules failed nf d r d',
  fix_failed_rows_loop pd op rules failed nf d = (r, d') ->
  forall idx', find_row idx' (rows d) <> None -> find_row idx' (rows d') <> None.
Proof.
  intros pd op rules failed. induction failed as [|idx failed IH];
    intros nf d r d' H idx' Hin; simpl in H.
  - unfold ret in H. inversion H; subst. assumption.
  - unfold bind, df_columns in H.
    destruct (ask_new_values op rules idx (columns d) [] d) as [[nv|e] d1] eqn:E;
      apply ask_new_values_inv in E; subst d1;
      [|inversion H; subst; assumption].
    unfold df_loc_set in H.
    set (d2 := mkDataFrame (columns d)
                 (set_row idx (align (columns d) nv) (rows d))) in H.
    assert (H2 : find_row idx' (rows d2) <> None)
      by (apply find_row_set_row_kept; assumption).
    unfold df_loc in H.
    destruct (find_row idx (rows d2)) as [cs|].
    + unfold lift in H.
      destruct (validate_row pd (combine (columns d2) cs) rules) as [valid|e].
      * eapply IH; eassumption.
      * inversion H; subst. assumption.
    + inversion H; subst. assumption.
Qed.

(** X6. The fix step stays inside the rows it is handed.  Whether it
    returns or raises, the frame afterwards has the same columns, every
    row label it had is still there, and a row whose label is not in
    [failed_rows] holds the cells it held before. *)
Theorem fix_failed_rows_frame : forall pd op rules failed d r d',
  fix_failed_rows pd op failed rules d = (r, d') ->
  columns d' = columns d
  /\ (forall idx, find_row idx (rows d) <> None ->
                  find_row idx (rows d') <> None)
  /\ (forall idx, ~ In idx failed ->
                  find_row idx (rows d') = find_row idx (rows d)).
Proof.
  intros pd op rules failed d r d' H. unfold fix_failed_rows in H.
  destruct (fix_failed_rows_loop_other_rows _ _ _ _ _ _ _ _ H) as [Hc Ho].
  split; [exact Hc|]. split; [|exact Ho].
  eapply fix_failed_rows_loop_labels. eassumption.
Qed.

Lemma fix_failed_rows_frame_witness :
  let rules := [("Name", RequiredFields); ("City", DataTypes)] in
  let after := snd (fix_failed_rows iso (typist "v" false) [0] rules fix_frame) in
  columns after = columns fix_frame
  /\ find_row 0 (rows after) <> None
  /\ find_row 1 (rows after) = find_row 1 (rows fix_frame).
Proof.
  intros rules after.
  destruct (fix_failed_rows_frame iso (typist "v" false) rules [0] fix_frame
              (Ok []) after eq_refl) as [Hc [Hl Ho]].
  split; [exact Hc|]. split.
  - apply Hl. discriminate.
  - apply Ho. simpl. intros [H|[]]. discriminate.
Defined.

Lemma fix_failed_rows_loop_subset : forall pd op rules failed nf d nf' d',
  fix_failed_rows_loop pd op rules failed nf d = (Ok nf', d') ->
  exists kept,
    nf' = nf ++ kept /\ (forall i, In i kept -> In i failed)
    /\ List.length kept <= List.length failed.
Proof.
  intros pd op rules failed. induction failed as [|idx failed IH];
    intros nf d nf' d' H; simpl in H.
  - unfold ret in H. inversion H; subst. exists [].
    rewrite app_nil_r. simpl. auto.
  - unfold bind, df_columns in H.
    destruct (ask_new_values op rules idx (columns d) [] d) as [[nv|e] d1];
      [|discriminate].
    unfold df_loc_set in H.
    match type of H with
    | context [df_loc idx ?x] => destruct (df_loc idx x) as [[row|e] d2]
    end; [|discriminate].
    unfold lift in H.
    destruct (validate_row pd row rules) as [valid|e]; [|discriminate].
    apply IH in H. destruct H as [kept [-> [Hk Hl]]].
    destruct valid.
    + exists kept. split; [reflexivity|]. split; [|simpl; lia].
      intros i Hi. right. now apply Hk.
    + exists (idx :: kept). rewrite <- app_assoc. split; [reflexivity|].
      split; [|simpl; lia].
      intros i [<-|Hi]; [now left|right; now apply Hk].
Qed.

(** X7. The list the fix step returns holds nothing but indices it
    was handed, and no more of them than it was handed: a row that was
    not in [failed_rows] is never reported as still failing. *)
Theorem fix_failed_rows_reports_handed_rows : forall pd op rules failed d nf d',
  fix_failed_rows pd op failed rules d = (Ok nf, d') ->
  (forall i, In i nf -> In i failed)
  /\ List.length nf <= List.length failed.
Proof.
  intros pd op rules failed d nf d' H. unfold fix_failed_rows in H.
  apply fix_failed_rows_loop_subset in H.
  destruct H as [kept [-> [Hk Hl]]]. simpl. auto.
Qed.

Lemma fix_failed_rows_reports_witness :
  let rules := [("Start Date", RequiredFields); ("End Date", RequiredFields);
                ("Stay", Dependencies)] in
  let d := frame_of_columns
             [("Start Date", [Str "2024-01-01"; NaN]);
              ("End Date", [Str "2024-01-05"; NaN]);
              ("Stay", [Str "4"; Str "0"])] in
  let op := typist "2024-01-02" false in
  fst (fix_failed_rows iso op [1] rules d) = Ok [1]
  /\ (forall i, In i [1] -> In i [1])
  /\ List.length [1] <= List.length [1].
Proof.
  intros rules d op. split; [reflexivity|].
  exact (fix_failed_rows_reports_handed_rows iso op rules [1] d
           [1] (snd (fix_failed_rows iso op [1] rules d)) eq_refl).
Defined.

Lemma nth_align : forall cols nv col p,
  position col cols = Some p ->
  nth p (align cols nv) NaN
  = match dict_get nv col with
    | Some v => v
    | None => NaN
    end.
Proof.
  intros cols nv col. induction cols as [|k ks IH]; intros p H; simpl in H.
  - discriminate.
  - destruct (String.eqb_spec k col) as [->|Hne].
    + inversion H; subst. reflexivity.
    + destruct (position col ks) as [q|]; [|discriminate].
      simpl in H. inversion H; subst. simpl. now apply IH.
Qed.

(** What the inner loop of the fix step collects, when the row is in
    the frame and every column it meets has a rule: the typed text
    under each column whose rule is "Required fields", and what was
    there before under every other key. *)
Lemma ask_new_values_ok : forall op rules idx d cs cols nv,
  find_row idx (rows d) = Some cs ->
  (forall col, In col cols -> dict_get rules col <> None) ->
  (forall col, In col cols -> In col (columns d)) ->
  exists nv',
    ask_new_values op rules idx cols nv d = (Ok nv', d)
    /\ forall k,
         dict_get nv' k
         = if in_dec string_dec k cols
           then match dict_get rules k with
                | Some RequiredFields =>
                    Some (Str (text_input op idx k
                                 (match position k (columns d) with
                                  | Some p => nth p cs NaN
                                  | None => NaN
                                  end)))
                | _ => dict_get nv k
                end
           else dict_get nv k.
Proof.
  intros op rules idx d cs cols. induction cols as [|col cols IH];
    intros nv Hrow Hrules Hcols.
  - exists nv. split; [reflexivity|]. intros k. reflexivity.
  - assert (Hr : dict_get rules col <> None) by (apply Hrules; now left).
    assert (Hc : In col (columns d)) by (apply Hcols; now left).
    assert (Hrules' : forall c, In c cols -> dict_get rules c <> None)
      by (intros c Hin; apply Hrules; now right).
    assert (Hcols' : forall c, In c cols -> In c (columns d))
      by (intros c Hin; apply Hcols; now right).
    cbn [ask_new_values].
    destruct (dict_get rules col) as [rule|] eqn:R; [|congruence].
    assert (Skip : forall nv0,
              rule <> RequiredFields ->
              exists nv',
                ask_new_values op rules idx cols nv0 d = (Ok nv', d)
                /\ forall k,
                     dict_get nv' k
                     = if in_dec string_dec k (col :: cols)
                       then match dict_get rules k with
                            | Some RequiredFields =>
                                Some (Str (text_input op idx k
                                  (match position k (columns d) with
                                   | Some p => nth p cs NaN
                                   | None => NaN
                                   end)))
                            | _ => dict_get nv0 k
                            end
                       else dict_get nv0 k).
    { intros nv0 Hne.
      destruct (IH nv0 Hrow Hrules' Hcols') as [nv' [E G]].
      exists nv'. split; [exact E|]. intros k. rewrite G.
      destruct (in_dec string_dec k cols) as [Hk|Hk];
        destruct (in_dec string_dec k (col :: cols)) as [Hk'|Hk'];
        try reflexivity.
      - exfalso. apply Hk'. now right.
      - destruct Hk' as [<-|Hk']; [|contradiction].
        rewrite R. destruct rule; congruence. }
    destruct rule; try (apply Skip; discriminate).
    unfold bind, df_loc_cell. rewrite Hrow.
    destruct (position col (columns d)) as [p|] eqn:P;
      [|apply position_none in P; contradiction].
    destruct (IH (dict_set nv col (Str (text_input op idx col (nth p cs NaN))))
                Hrow Hrules' Hcols') as [nv' [E G]].
    exists nv'. split; [exact E|]. intros k. rewrite G.
    destruct (in_dec string_dec k cols) as [Hk|Hk];
      destruct (in_dec string_dec k (col :: cols)) as [Hk'|Hk'].
    + destruct (dict_get rules k) as [[]|] eqn:Rk; try reflexivity;
        (destruct (string_dec col k) as [->|Hne];
         [congruence|now rewrite dict_get_set_other]).
    + exfalso. apply Hk'. now right.
    + destruct Hk' as [<-|Hk']; [|contradiction].
      rewrite R, P. apply dict_get_set_same.
    + rewrite dict_get_set_other; [reflexivity|].
      intros ->. apply Hk'. now left.
Qed.

(** X8. What a fix writes into the row it is handed.  For a row that
    is in the frame, every column having a rule: a cell whose column
    has the rule "Required fields" becomes the text typed for it (the
    field having shown the cell's old value), and every other cell of
    the row becomes NaN, whatever it held, and whether or not the
    re-validation that follows raises. *)
Theorem fix_failed_rows_row_contents : forall pd op rules idx d cs col v,
  find_row idx (rows d) = Some cs ->
  (forall c, In c (columns d) -> dict_get rules c <> None) ->
  df_loc_cell idx col d = (Ok v, d) ->
  let after := snd (fix_failed_rows pd op [idx] rules d) in
  df_loc_cell idx col after
  = (Ok (match dict_get rules col with
         | Some RequiredFields => Str (text_input op idx col v)
         | _ => NaN
         end), after).
Proof.
  intros pd op rules idx d cs col v Hrow Hrules Hcell after.
  destruct (ask_new_values_ok op rules idx d cs (columns d) [] Hrow Hrules
              (fun c H => H)) as [nv [E G]].
  set (d2 := mkDataFrame (columns d)
               (set_row idx (align (columns d) nv) (rows d))).
  assert (A : after = d2).
  { unfold after, fix_failed_rows. cbn [fix_failed_rows_loop].
    unfold bind at 1. unfold df_columns.
    unfold bind at 1. rewrite E.
    unfold bind at 1. unfold df_loc_set. fold d2.
    unfold bind at 1. unfold df_loc.
    replace (find_row idx (rows d2)) with (Some (align (columns d) nv))
      by (symmetry; apply find_row_set_row_same).
    unfold bind, lift.
    destruct (validate_row pd (combine (columns d2) (align (columns d) nv))
                rules) as [valid|e]; reflexivity. }
  rewrite A. unfold df_loc_cell in *. rewrite Hrow in Hcell.
  replace (find_row idx (rows d2)) with (Some (align (columns d) nv))
    by (symmetry; apply find_row_set_row_same).
  change (columns d2) with (columns d).
  destruct (position col (columns d)) as [p|] eqn:P; [|discriminate].
  inversion Hcell; subst v.
  rewrite (nth_align _ _ _ _ P). rewrite G.
  destruct (in_dec string_dec col (columns d)) as [Hin|Hn].
  - rewrite P. destruct (dict_get rules col) as [[]|]; reflexivity.
  - exfalso. apply Hn.
    destruct (in_dec string_dec col (columns d)) as [H|H]; [assumption|].
    apply position_none in H. congruence.
Qed.

Lemma fix_failed_rows_row_contents_witness :
  let rules := [("Name", RequiredFields); ("City", DataTypes)] in
  let after := snd (fix_failed_rows iso (typist "v" false) [0] rules fix_frame) in
  df_loc_cell 0 "City" fix_frame = (Ok (Str "keep"), fix_frame)
  /\ df_loc_cell 0 "City" after = (Ok NaN, after)
  /\ df_loc_cell 0 "Name" after = (Ok (Str "v"), after).
Proof.
  intros rules after.
  assert (R : forall c, In c (columns fix_frame) -> dict_get rules c <> None).
  { intros c [<-|[<-|[]]]; discriminate. }
  split; [reflexivity|]. split.
  - exact (fix_failed_rows_row_contents iso (typist "v" false) rules 0
             fix_frame [NaN; Str "keep"] "City" (Str "keep")
             eq_refl R eq_refl).
  - exact (fix_failed_rows_row_contents iso (typist "v" false) rules 0
             fix_frame [NaN; Str "keep"] "Name" NaN eq_refl R eq_refl).
Defined.

Lemma ask_new_values_missing_rule : forall op rules idx cols nv d col,
  In col cols ->
  dict_get rules col = None ->
  ask_new_values op rules idx cols nv d = (Raise KeyError, d).
Proof.
  intros op rules idx cols. induction cols as [|c cols IH];
    intros nv d col Hin Hnone; simpl in *.
  - contradiction.
  - destruct (dict_get rules c) as [rule|] eqn:R; [|reflexivity].
    assert (Hin' : In col cols).
    { destruct Hin as [->|Hin]; [congruence|assumption]. }
    destruct rule; try (eapply IH; eassumption).
    unfold bind, df_loc_cell.
    destruct (find_row idx (rows d)); [|reflexivity].
    destruct (position c (columns d)); [|reflexivity].
    eapply IH; eassumption.
Qed.

Lemma ask_new_values_missing_row : forall op rules idx cols nv d col,
  find_row idx (rows d) = None ->
  In col cols ->
  dict_get rules col = Some RequiredFields ->
  ask_new_values op rules idx cols nv d = (Raise KeyError, d).
Proof.
  intros op rules idx cols. induction cols as [|c cols IH];
    intros nv d col Hrow Hin Hreq; simpl in *.
  - contradiction.
  - destruct (dict_get rules c) as [rule|] eqn:R; [|reflexivity].
    destruct rule;
      try (apply (IH nv d col Hrow); [|assumption];
           destruct Hin as [->|Hin]; [congruence|assumption]).
    unfold bind, df_loc_cell. rewrite Hrow. reflexivity.
Qed.

(** X9. Two ways the fix step ends in [KeyError] on its first row,
    the frame left as it was and no text asked for any later row: a
    column of the frame has no entry in [validation_rules]; or the
    first index is not a label of the frame while some column has the
    rule "Required fields", whose text field wants the cell's current
    value. *)
Theorem fix_failed_rows_key_error : forall pd op rules idx rest d,
  (exists col, In col (columns d) /\ dict_get rules col = None)
  \/ (find_row idx (rows d) = None
      /\ exists col, In col (columns d)
                     /\ dict_get rules col = Some RequiredFields) ->
  fix_failed_rows pd op (idx :: rest) rules d = (Raise KeyError, d).
Proof.
  intros pd op rules idx rest d H.
  unfold fix_failed_rows. cbn [fix_failed_rows_loop].
  unfold bind at 1. unfold df_columns. unfold bind at 1.
  destruct H as [[col [Hin Hnone]]|[Hrow [col [Hin Hreq]]]].
  - rewrite (ask_new_values_missing_rule op rules idx (columns d) [] d col
               Hin Hnone).
    reflexivity.
  - rewrite (ask_new_values_missing_row op rules idx (columns d) [] d col
               Hrow Hin Hreq).
    reflexivity.
Qed.

Lemma fix_failed_rows_key_error_witness :
  fix_failed_rows iso (typist "v" false) [0; 1] [("Name", RequiredFields)]
    fix_frame = (Raise KeyError, fix_frame)
  /\ fix_failed_rows iso (typist "v" false) [7]
       [("Name", RequiredFields); ("City", DataTypes)] fix_frame
     = (Raise KeyError, fix_frame).
Proof.
  split.
  - apply fix_failed_rows_key_error. left. exists "City".
    split; [right; left; reflexivity|reflexivity].
  - apply fix_failed_rows_key_error. right. split; [reflexivity|].
    exists "Name". split; [left; reflexivity|reflexivity].
Defined.

Lemma dict_get_combine_align : forall cols nv col,
  In col cols ->
  dict_get (combine cols (align cols nv)) col
  = Some (match dict_get nv col with
          | Some v => v
          | None => NaN
          end).
Proof.
  intros cols nv col. induction cols as [|c cols IH]; intros Hin; simpl in *.
  - contradiction.
  - destruct (String.eqb_spec c col) as [->|Hne]; [reflexivity|].
    destruct Hin as [->|Hin]; [congruence|]. now apply IH.
Qed.

Lemma dict_get_In : forall (V : Type) (d : dict V) k v,
  dict_get d k = Some v -> In (k, v) d.
Proof.
  intros V d k v. induction d as [|[k0 v0] d IH]; simpl; intros H.
  - discriminate.
  - destruct (String.eqb_spec k0 k) as [->|Hne].
    + inversion H; subst. now left.
    + right. now apply IH.
Qed.

(** A row whose cells under the keys of the rules are all text passes
    rules that are all "Required fields". *)
Lemma validate_row_loop_required : forall pd rules items row,
  Forall (fun cr => snd cr = RequiredFields) items ->
  (forall col rule, In (col, rule) items ->
                    exists s, dict_get row col = Some (Str s)) ->
  validate_row_loop pd rules items row = Ok true.
Proof.
  intros pd rules items row. induction items as [|[col rule] items IH];
    intros Hall Hrow; simpl.
  - reflexivity.
  - inversion Hall as [|? ? Hr Hall']; subst. simpl in Hr. subst rule.
    destruct (Hrow col RequiredFields (or_introl eq_refl)) as [s Hs].
    simpl. unfold series_getitem. rewrite Hs. simpl.
    apply IH; [assumption|].
    intros c r Hin. apply (Hrow c r). now right.
Qed.

(** X10. When every rule is "Required fields", the rules have the
    frame's columns as keys and the rows handed in are in the frame,
    the fix step returns the empty list whatever the operator types:
    the text field gives text, an empty text included, and text is
    never null, so every fixed row passes its re-validation. *)
Theorem fix_failed_rows_required_always_passes : forall pd op rules failed d,
  Forall (fun cr => snd cr = RequiredFields) rules ->
  (forall col, In col (columns d) <-> dict_in col rules = true) ->
  Forall (fun idx => find_row idx (rows d) <> None) failed ->
  exists d', fix_failed_rows pd op failed rules d = (Ok [], d').
Proof.
  intros pd op rules failed. unfold fix_failed_rows.
  induction failed as [|idx failed IH]; intros d Hall Hkeys Hrows.
  - exists d. reflexivity.
  - inversion Hrows as [|? ? Hidx Hrest]; subst.
    destruct (find_row idx (rows d)) as [cs|] eqn:Hrow; [|congruence].
    assert (Hrules : forall c, In c (columns d) -> dict_get rules c <> None).
    { intros c Hc. apply Hkeys in Hc. unfold dict_in in Hc.
      destruct (dict_get rules c); [discriminate|discriminate Hc]. }
    destruct (ask_new_values_ok op rules idx d cs (columns d) [] Hrow Hrules
                (fun c H => H)) as [nv [E G]].
    set (d2 := mkDataFrame (columns d)
                 (set_row idx (align (columns d) nv) (rows d))).
    assert (V : validate_row pd (combine (columns d) (align (columns d) nv))
                  rules = Ok true).
    { unfold validate_row. apply validate_row_loop_required; [assumption|].
      intros col rule Hin.
      assert (Hc : In col (columns d)).
      { apply Hkeys. unfold dict_in.
        destruct (dict_get rules col) eqn:R; [reflexivity|].
        exfalso. clear - Hin R. induction rules as [|[k0 v0] rs IHr];
          simpl in *; [contradiction|].
        destruct (String.eqb_spec k0 col) as [->|Hne]; [discriminate|].
        destruct Hin as [Hin|Hin]; [inversion Hin; congruence|auto]. }
      rewrite (dict_get_combine_align _ nv col Hc). rewrite G.
      destruct (in_dec string_dec col (columns d)) as [_|Hn];
        [|contradiction].
      destruct (dict_get rules col) as [r|] eqn:R;
        [|exfalso; now apply (Hrules col Hc)].
      apply dict_get_In in R. rewrite Forall_forall in Hall.
      specialize (Hall _ R). simpl in Hall. subst r. eauto. }
    destruct (IH d2) as [d' Hd'].
    + assumption.
    + intros col. apply Hkeys.
    + apply Forall_forall. intros i Hi. rewrite Forall_forall in Hrest.
      apply find_row_set_row_kept. now apply Hrest.
    + exists d'. cbn [fix_failed_rows_loop].
      unfold bind at 1. unfold df_columns. unfold bind at 1. rewrite E.
      unfold bind at 1. unfold df_loc_set. fold d2.
      unfold bind at 1. unfold df_loc.
      replace (find_row idx (rows d2)) with (Some (align (columns d) nv))
        by (symmetry; apply find_row_set_row_same).
      unfold bind at 1. unfold lift.
      change (columns d2) with (columns d). rewrite V. exact Hd'.
Qed.

Lemma fix_failed_rows_required_witness :
  exists d', fix_failed_rows iso (typist "" false) [1; 0; 1]
               [("Name", RequiredFields)] required_frame = (Ok [], d').
Proof.
  apply fix_failed_rows_required_always_passes.
  - repeat constructor.
  - intros col. split.
    + intros [<-|[]]. reflexivity.
    + unfold dict_in. cbn [dict_get].
      destruct (String.eqb_spec "Name" col) as [<-|Hne];
        [intros _; now left|intros X; discriminate X].
  - repeat constructor; discriminate.
Defined.

(** ** What [main] can come to *)

Lemma main_loop_unbound : forall pd op f fuel k l,
  failed_rows l = None ->
  main_loop pd op f fuel k l
  = (match fuel with
     | 0 => Ok Running
     | S _ => Raise UnboundLocalError
     end, l).
Proof.
  intros pd op f fuel k [d rules fr w] H. simpl in H. subst fr.
  destruct fuel as [|fuel]; reflexivity.
Qed.

(** X11. Whatever the file, the operator and the number of turns
    [main] is followed for: nothing is ever written out, [failed_rows]
    is never bound, the frame [main] holds is the one [load_data]
    returned, and once the loop has been entered for at least one turn
    [main] is not running any more, it has returned for want of a file
    or ended in an exception. *)
Theorem main_never_exports : forall pd op file fuel r l,
  main pd op file fuel = (r, l) ->
  (forall st, l = Some st ->
     written st = []
     /\ failed_rows st = None
     /\ exists f, file = Some f /\ load_data f = Ok (df st))
  /\ (0 < fuel -> r <> Ok Running)
  /\ (r = Ok Returned -> file = None).
Proof.
  intros pd op file fuel r l H. unfold main in H.
  destruct file as [f|].
  - destruct (load_data f) as [d|e] eqn:L.
    + unfold bind, on_df in H. simpl in H.
      destruct (validate_data pd (get_validation_rules (selectbox op 0) d) d)
        as [[fr|e] d1] eqn:V;
        pose proof (validate_data_inv _ _ _ _ _ V); subst d1.
      * rewrite main_loop_unbound in H by reflexivity.
        inversion H; subst. split; [|split].
        -- intros st Hst. inversion Hst; subst. simpl. eauto.
        -- intros Hf. destruct fuel; [lia|discriminate].
        -- destruct fuel; discriminate.
      * inversion H; subst. split; [|split].
        -- intros st Hst. inversion Hst; subst. simpl. eauto.
        -- discriminate.
        -- discriminate.
    + inversion H; subst. split; [|split]; try discriminate.
  - inversion H; subst. split; [|split]; try discriminate. reflexivity.
Qed.

Lemma main_never_exports_witness :
  let op := typist "z" true in
  main iso op (Some required_upload) 5
  = (Raise UnboundLocalError,
     Some (mkLocals required_frame [("Name", RequiredFields)] None []))
  /\ Raise UnboundLocalError <> Ok Running.
Proof.
  intros op. split; [reflexivity|].
  exact (proj1 (proj2 (main_never_exports iso op (Some required_upload) 5
                         (Raise UnboundLocalError)
                         (Some (mkLocals required_frame
                                  [("Name", RequiredFields)] None []))
                         eq_refl))
           ltac:(lia)).
Defined.

(** ** The order of the rules in [validate_row] *)

Lemma validate_row_loop_true : forall pd rules items row,
  validate_row_loop pd rules items row = Ok true
  <-> Forall (fun cr => validate_row_rule pd rules row (fst cr) (snd cr)
                        = Ok true) items.
Proof.
  intros pd rules items row. induction items as [|[col rule] items IH]; simpl.
  - split; [constructor|reflexivity].
  - destruct (validate_row_rule pd rules row col rule) as [[|]|e] eqn:E.
    + rewrite IH. split.
      * intros H. constructor; assumption.
      * intros H. inversion H; assumption.
    + split; [discriminate|]. intros H. inversion H; subst. simpl in *.
      congruence.
    + split; [discriminate|]. intros H. inversion H; subst. simpl in *.
      congruence.
Qed.

(** X12. [validate_row] returns True exactly when the turn of every
    rule passes, and it stops at the first rule that does not: once
    the rules before a rule pass and that rule answers False, the row
    is reported as failing whatever comes after, an exception that a
    later rule would raise included; and once a rule raises, the
    exception is the result whatever comes after. *)
Theorem validate_row_stops_at_first_failure : forall pd rules row,
  (validate_row pd row rules = Ok true
   <-> Forall (fun cr => validate_row_rule pd rules row (fst cr) (snd cr)
                         = Ok true) rules)
  /\ (forall pre col rule post,
        validate_row_loop pd rules pre row = Ok true ->
        (validate_row_rule pd rules row col rule = Ok false ->
         validate_row_loop pd rules (pre ++ (col, rule) :: post) row = Ok false)
        /\ (forall e,
              validate_row_rule pd rules row col rule = Raise e ->
              validate_row_loop pd rules (pre ++ (col, rule) :: post) row
              = Raise e)).
Proof.
  intros pd rules row. split.
  - unfold validate_row. apply validate_row_loop_true.
  - intros pre col rule post Hpre. split.
    + intros Hf. rewrite validate_row_loop_app, Hpre.
      cbn [validate_row_loop]. now rewrite Hf.
    + intros e He. rewrite validate_row_loop_app, Hpre.
      cbn [validate_row_loop]. now rewrite He.
Qed.

Lemma validate_row_stops_witness :
  let row := [("Name", NaN); ("Code", Str "A")] in
  validate_row_loop iso [] [("Name", RequiredFields); ("Code", UniqueValues)] row
  = Ok false
  /\ validate_row_loop iso [] [("Code", UniqueValues); ("Name", RequiredFields)]
       row
     = Raise TypeError.
Proof.
  intros row.
  pose proof (validate_row_stops_at_first_failure iso [] row) as [_ H].
  split.
  - exact (proj1 (H [] "Name" RequiredFields [("Code", UniqueValues)] eq_refl)
             eq_refl).
  - exact (proj2 (H [] "Code" UniqueValues [("Name", RequiredFields)] eq_refl)
             TypeError eq_refl).
Defined.

(** ** The e-mail pattern, spelled out *)

Lemma lang_star_class : forall p s,
  lang (Star (Class p)) s <-> Forall (fun a => p a = true) s.
Proof.
  intros p s. split.
  - intros H. remember (Star (Class p)) as r eqn:Er.
    induction H as [| | | | | |r0 s1 s2 H1 _ H2 IH2]; try discriminate.
    + constructor.
    + inversion Er; subst r0. inversion H1; subst.
      constructor; [assumption|]. now apply IH2.
  - induction s as [|a s IH]; intros H.
    + constructor.
    + inversion H; subst. change (a :: s) with ([a] ++ s).
      constructor; [now constructor|now apply IH].
Qed.

Lemma lang_class_inv : forall p s,
  lang (Class p) s -> exists a, s = [a] /\ p a = true.
Proof.
  intros p s H. inversion H; subst. eauto.
Qed.

Lemma lang_plus_class : forall p s,
  lang (Plus (Class p)) s <-> s <> [] /\ Forall (fun a => p a = true) s.
Proof.
  intros p s. unfold Plus. split.
  - intros H. apply lang_cat_inv in H.
    destruct H as [s1 [s2 [-> [H1 H2]]]].
    apply lang_class_inv in H1. destruct H1 as [a [-> Pa]].
    apply lang_star_class in H2. split; [discriminate|].
    simpl. now constructor.
  - intros [Hne H]. destruct s as [|a s]; [congruence|].
    inversion H; subst. change (a :: s) with ([a] ++ s).
    constructor; [now constructor|now apply lang_star_class].
Qed.

Lemma lang_chr : forall a s, lang (Chr a) s <-> s = [a].
Proof.
  intros a s. unfold Chr. split.
  - intros H. apply lang_class_inv in H. destruct H as [b [-> E]].
    apply Ascii.eqb_eq in E. now subst.
  - intros ->. constructor. apply Ascii.eqb_refl.
Qed.

Lemma lang_at_least2_class : forall p s,
  lang (AtLeast2 (Class p)) s
  <-> 2 <= List.length s /\ Forall (fun a => p a = true) s.
Proof.
  intros p s. unfold AtLeast2. split.
  - intros H. apply lang_cat_inv in H.
    destruct H as [s1 [s2 [-> [H1 H2]]]].
    apply lang_class_inv in H1. destruct H1 as [a [-> Pa]].
    apply lang_cat_inv in H2. destruct H2 as [s3 [s4 [-> [H3 H4]]]].
    apply lang_class_inv in H3. destruct H3 as [b [-> Pb]].
    apply lang_star_class in H4. simpl. split; [lia|].
    constructor; [assumption|]. now constructor.
  - intros [Hl H]. destruct s as [|a [|b s]]; simpl in Hl; try lia.
    inversion H as [|? ? Pa H']; subst. inversion H' as [|? ? Pb H'']; subst.
    change (a :: b :: s) with ([a] ++ [b] ++ s).
    constructor; [now constructor|].
    constructor; [now constructor|now apply lang_star_class].
Qed.

Lemma lang_email_pattern : forall cs, lang email_pattern cs <-> email_shape cs.
Proof.
  intros cs. unfold email_pattern, email_shape. split.
  - intros H.
    apply lang_cat_inv in H. destruct H as [l [r1 [-> [Hl H]]]].
    apply lang_cat_inv in H. destruct H as [a [r2 [-> [Ha H]]]].
    apply lang_cat_inv in H. destruct H as [d [r3 [-> [Hd H]]]].
    apply lang_cat_inv in H. destruct H as [o [t [-> [Ho Ht]]]].
    apply lang_plus_class in Hl. apply lang_plus_class in Hd.
    apply lang_chr in Ha. apply lang_chr in Ho. subst a o.
    apply lang_at_least2_class in Ht.
    exists l, d, t. simpl. tauto.
  - intros [l [d [t [-> [Hl [Fl [Hd [Fd [Ht Ft]]]]]]]]].
    constructor; [apply lang_plus_class; auto|].
    change ("@"%char :: d ++ "."%char :: t)
      with (["@"%char] ++ d ++ ["."%char] ++ t).
    constructor; [now apply lang_chr|].
    constructor; [apply lang_plus_class; auto|].
    constructor; [now apply lang_chr|].
    apply lang_at_least2_class. auto.
Qed.

(** X13. What the e-mail check accepts, character by character.  The
    [re.match] of the source passes a text exactly when the text, or
    the text without a newline that ends it, is made of one or more
    characters among letters, digits and [._%+-], an at sign, one or
    more characters among letters, digits and [.-], a dot, and two or
    more letters; in particular the text in front of the final newline
    holds exactly one at sign. *)
Theorem email_check_accepts_shape : forall s,
  (re_match_anchored email_pattern s = true
   <-> email_shape (list_ascii_of_string s)
       \/ exists cs, list_ascii_of_string s = cs ++ [newline] /\ email_shape cs)
  /\ (forall cs, email_shape cs -> count_occ ascii_dec cs "@"%char = 1).
Proof.
  intros s. split.
  - rewrite re_match_anchored_email. unfold full_match_or_final_newline.
    rewrite lang_email_pattern. split.
    + intros [H|[cs [E H]]]; [now left|right].
      exists cs. split; [assumption|now apply lang_email_pattern].
    + intros [H|[cs [E H]]]; [now left|right].
      exists cs. split; [assumption|now apply lang_email_pattern].
  - intros cs [l [d [t [-> [_ [Fl [_ [Fd [_ Ft]]]]]]]]].
    assert (Z : forall (p : ascii -> bool) xs,
               p "@"%char = false ->
               Forall (fun a => p a = true) xs ->
               count_occ ascii_dec xs "@"%char = 0).
    { intros p xs Hp Hxs. apply count_occ_not_In. intros Hin.
      rewrite Forall_forall in Hxs. specialize (Hxs _ Hin). congruence. }
    rewrite count_occ_app. simpl.
    rewrite count_occ_app. simpl.
    rewrite (Z is_local l eq_refl Fl), (Z is_domain d eq_refl Fd),
      (Z is_alpha t eq_refl Ft).
    reflexivity.
Qed.

Lemma email_check_accepts_witness :
  email_shape (list_ascii_of_string "ann.lee@mail.example.org")
  /\ count_occ ascii_dec (list_ascii_of_string "ann.lee@mail.example.org")
       "@"%char = 1.
Proof.
  assert (S : email_shape (list_ascii_of_string "ann.lee@mail.example.org")).
  { destruct (proj1 (email_check_accepts_shape "ann.lee@mail.example.org"))
      as [Hs _].
    destruct (Hs eq_refl) as [H|[cs [E _]]]; [exact H|].
    exfalso. apply (f_equal (@rev ascii)) in E.
    rewrite rev_app_distr in E. simpl in E. discriminate E. }
  split; [exact S|].
  exact (proj2 (email_check_accepts_shape "") _ S).
Defined.

(** ** The required rule, column by column and row by row *)

Lemma any_isnull : forall c, any (map isnull c) = true <-> In NaN c.
Proof.
  intros c. rewrite any_map_true, Exists_exists. split.
  - intros [x [Hx Hn]]. destruct x; [assumption|discriminate].
  - intros H. exists NaN. auto.
Qed.

Lemma required_loop_entries : forall pd rules items n fr d fr' d',
  Forall (fun cr => snd cr = RequiredFields) items ->
  validate_data_loop pd rules (enumerate_from n items) fr d = (Ok fr', d') ->
  forall i,
    In i fr'
    <-> In i fr
        \/ (n <= i
            /\ exists col c,
                 nth_error items (i - n) = Some (col, RequiredFields)
                 /\ df_getitem col d = (Ok c, d) /\ In NaN c).
Proof.
  intros pd rules items. induction items as [|[col rule] items IH];
    intros n fr d fr' d' Hall H i; simpl in H.
  - unfold ret in H. inversion H; subst. split; [now left|].
    intros [Hi|[_ [col [c [E _]]]]]; [assumption|].
    destruct (i - n); discriminate.
  - inversion Hall as [|? ? Hr Hall']; subst. simpl in Hr. subst rule.
    unfold bind in H. simpl in H. unfold bind in H.
    destruct (df_getitem col d) as [[c|e] d1] eqn:G; [|discriminate].
    pose proof (df_getitem_inv _ _ _ _ G); subst d1.
    assert (Step : forall fr1,
              validate_data_loop pd rules (enumerate_from (S n) items) fr1 d
              = (Ok fr', d') ->
              (In i fr1 <-> In i fr \/ (i = n /\ In NaN c)) ->
              In i fr'
              <-> In i fr
                  \/ (n <= i
                      /\ exists col0 c0,
                           nth_error ((col, RequiredFields) :: items) (i - n)
                           = Some (col0, RequiredFields)
                           /\ df_getitem col0 d = (Ok c0, d) /\ In NaN c0)).
    { intros fr1 H1 Hfr1. rewrite (IH _ _ _ _ _ Hall' H1 i), Hfr1. split.
      - intros [[Hi|[-> Hc]]|[Hle [col0 [c0 [E [G0 N0]]]]]].
        + now left.
        + right. split; [lia|]. exists col, c.
          rewrite Nat.sub_diag. simpl. auto.
        + right. split; [lia|]. exists col0, c0.
          replace (i - n) with (S (i - S n)) by lia. simpl. auto.
      - intros [Hi|[Hle [col0 [c0 [E [G0 N0]]]]]].
        + left. now left.
        + destruct (Nat.eq_dec i n) as [->|Hne].
          * rewrite Nat.sub_diag in E. simpl in E. inversion E; subst col0.
            rewrite G in G0. inversion G0; subst c0.
            left. right. auto.
          * right. split; [lia|]. exists col0, c0.
            replace (i - n) with (S (i - S n)) in E by lia. simpl in E.
            auto. }
    destruct (any (map isnull c)) eqn:A; unfold ret in H.
    + apply Step with (fr1 := fr ++ [n]); [exact H|].
      apply any_isnull in A. rewrite in_app_iff. simpl. split.
      * intros [Hi|[<-|[]]]; [now left|right; auto].
      * intros [Hi|[-> _]]; [now left|right; now left].
    + apply Step with (fr1 := fr); [exact H|].
      split; [now left|]. intros [Hi|[_ Hc]]; [assumption|].
      apply any_isnull in Hc. congruence.
Qed.

(** X14. With rules that are all "Required fields", the list the full
    run returns holds a position exactly when the column of the rule at
    that position has a missing value somewhere: one entry per column
    that fails, none per row. *)
Theorem required_rules_list_columns_with_nulls : forall pd rules d fr d',
  Forall (fun cr => snd cr = RequiredFields) rules ->
  validate_data pd rules d = (Ok fr, d') ->
  forall i,
    In i fr
    <-> exists col c,
          nth_error rules i = Some (col, RequiredFields)
          /\ df_getitem col d = (Ok c, d) /\ In NaN c.
Proof.
  intros pd rules d fr d' Hall H i. unfold validate_data, bind in H.
  destruct (validate_data_loop pd rules (enumerate rules) [] d)
    as [[fr0|e] d1] eqn:E; [|discriminate].
  assert (fr = fr0).
  { destruct (0 <? List.length fr0); [destruct (df_iloc fr0 d1) as [[x|e] d2]|];
      unfold ret in H; congruence. }
  subst fr0. unfold enumerate in E.
  rewrite (required_loop_entries _ _ _ _ _ _ _ _ Hall E i).
  rewrite Nat.sub_0_r. split.
  - intros [[]|[_ Hx]]. exact Hx.
  - intros Hx. right. split; [lia|exact Hx].
Qed.

Lemma required_rules_list_witness :
  let rules := [("Name", RequiredFields); ("City", RequiredFields)] in
  let d := frame_of_columns
             [("Name", [Str "x"; Str "y"]); ("City", [NaN; NaN])] in
  validate_data iso rules d = (Ok [1], d)
  /\ exists col c,
       nth_error rules 1 = Some (col, RequiredFields)
       /\ df_getitem col d = (Ok c, d) /\ In NaN c.
Proof.
  intros rules d. split; [reflexivity|].
  apply (proj1 (required_rules_list_columns_with_nulls iso rules d [1] d
                  ltac:(repeat constructor) eq_refl 1)).
  now left.
Defined.

Lemma find_row_In : forall idx rs cs,
  find_row idx rs = Some cs -> In (idx, cs) rs.
Proof.
  intros idx rs cs. induction rs as [|[l cs'] rs IH]; simpl; intros H.
  - discriminate.
  - destruct (Nat.eqb_spec l idx) as [->|Hne].
    + inversion H; subst. now left.
    + right. now apply IH.
Qed.

Lemma find_row_NoDup : forall idx rs cs,
  NoDup (map fst rs) -> In (idx, cs) rs -> find_row idx rs = Some cs.
Proof.
  intros idx rs cs. induction rs as [|[l cs'] rs IH]; simpl; intros Hnd Hin.
  - contradiction.
  - inversion Hnd as [|? ? Hl Hnd']; subst.
    destruct Hin as [Hin|Hin].
    + inversion Hin; subst. now rewrite Nat.eqb_refl.
    + destruct (Nat.eqb_spec l idx) as [->|Hne].
      * exfalso. apply Hl. change idx with (fst (idx, cs)).
        now apply in_map.
      * now apply IH.
Qed.

Lemma dict_get_combine_nth : forall cols cs col p,
  position col cols = Some p ->
  List.length cs = List.length cols ->
  dict_get (combine cols cs) col = Some (nth p cs NaN).
Proof.
  intros cols. induction cols as [|k ks IH]; intros cs col p H Hl;
    simpl in H.
  - discriminate.
  - destruct cs as [|x cs]; simpl in Hl; [discriminate|].
    simpl. destruct (String.eqb_spec k col) as [->|Hne].
    + inversion H; subst. reflexivity.
    + destruct (position col ks) as [q|] eqn:P; [|discriminate].
      simpl in H. inversion H; subst. simpl. apply IH; [assumption|lia].
Qed.

(** X15. The two views of the required rule agree on a frame whose
    labels are distinct and whose rows have one cell per column: the
    column has a missing value, which is what the full run tests,
    exactly when some row of the frame, taken out with [df.loc], fails
    the turn of [validate_row] for that column. *)
Theorem required_column_agrees_with_rows : forall pd rules d col c,
  well_formed d ->
  df_getitem col d = (Ok c, d) ->
  (In NaN c
   <-> exists idx row,
         df_loc idx d = (Ok row, d)
         /\ validate_row_rule pd rules row col RequiredFields = Ok false).
Proof.
  intros pd rules d col c [Hnd Hlen] Hc. unfold df_getitem in Hc.
  destruct (position col (columns d)) as [p|] eqn:P; [|discriminate].
  inversion Hc; subst c. clear Hc. rewrite Forall_forall in Hlen.
  split.
  - intros Hin. apply in_map_iff in Hin. destruct Hin as [[idx cs] [Hn Hr]].
    simpl in Hn. exists idx, (combine (columns d) cs). split.
    + unfold df_loc. now rewrite (find_row_NoDup idx (rows d) cs Hnd Hr).
    + pose proof (Hlen _ Hr) as L. simpl in L.
      simpl. unfold series_getitem.
      rewrite (dict_get_combine_nth _ _ _ _ P L). simpl.
      now rewrite Hn.
  - intros [idx [row [Hloc Hrule]]]. unfold df_loc in Hloc.
    destruct (find_row idx (rows d)) as [cs|] eqn:F; [|discriminate].
    inversion Hloc; subst row. apply find_row_In in F.
    pose proof (Hlen _ F) as L. simpl in L.
    simpl in Hrule. unfold series_getitem in Hrule.
    rewrite (dict_get_combine_nth _ _ _ _ P L) in Hrule.
    simpl in Hrule. apply in_map_iff. exists (idx, cs). split; [|assumption].
    simpl. destruct (nth p cs NaN); [reflexivity|discriminate].
Qed.

Lemma required_column_agrees_witness :
  well_formed required_frame
  /\ exists idx row,
       df_loc idx required_frame = (Ok row, required_frame)
       /\ validate_row_rule iso [] row "Name" RequiredFields = Ok false.
Proof.
  assert (W : well_formed required_frame).
  { split.
    - simpl.
      constructor; [simpl; intros [H|[H|[]]]; discriminate|].
      constructor; [simpl; intros [H|[]]; discriminate|].
      constructor; [simpl; intros []|constructor].
    - simpl. constructor; [reflexivity|].
      constructor; [reflexivity|].
      constructor; [reflexivity|constructor]. }
  split; [exact W|].
  apply (proj1 (required_column_agrees_with_rows iso [] required_frame "Name"
                  [Str "x"; NaN; Str "y"] W eq_refl)).
  right. now left.
Defined.

(** ** One turn of the loop: export or reload *)

(** X16. A turn of the loop whose fix step returns either exports or
    reloads, never both.  With the confirmation box ticked the frame
    and the rules stay those the fix step left, and the frame is
    written out once, as the fix step left it, when the button is
    pressed and the export box is ticked too, and not at all
    otherwise.  With the box not ticked nothing is written, whatever
    the button, and the frame the turn ends with is the one loaded
    again from the file. *)
Theorem loop_body_exports_or_reloads : forall pd op f k l fr nf d1 r l',
  failed_rows l = Some fr ->
  fix_failed_rows pd op fr (validation_rules l) (df l) = (Ok nf, d1) ->
  loop_body pd op f k l = (r, l') ->
  (checkbox_confirm op k = true ->
   df l' = d1
   /\ validation_rules l' = validation_rules l
   /\ written l'
      = written l
        ++ (if button_save op k && checkbox_export op k
            then [(selectbox_format op k, d1)] else []))
  /\ (checkbox_confirm op k = false ->
      written l' = written l
      /\ forall d, load_data f = Ok d -> df l' = d).
Proof.
  intros pd op f k [d rules fr0 w] fr nf d1 r l' Hfr Hfix H.
  simpl in Hfr, Hfix. subst fr0.
  unfold loop_body in H.
  unfold bind, read_failed_rows, get_locals, on_df, set_failed_rows in H.
  simpl in H. rewrite Hfix in H. simpl in H.
  destruct (checkbox_confirm op k) eqn:C.
  - split; [intros _|discriminate].
    rewrite andb_true_r in H.
    destruct (button_save op k); simpl in H;
      unfold export_validation_results, ret in H; simpl in H;
      try destruct (checkbox_export op k); simpl in H;
      match type of H with
      | context [validate_data pd rules d1] =>
          destruct (validate_data pd rules d1) as [[v|e] d2] eqn:V;
          apply validate_data_inv in V; subst d2; simpl in H
      end;
      inversion H; subst; simpl; rewrite ?app_nil_r; auto.
  - split; [discriminate|intros _].
    rewrite andb_false_r in H. simpl in H.
    unfold ret, lift, set_df, set_validation_rules in H. simpl in H.
    destruct (load_data f) as [d0|e] eqn:L; simpl in H.
    + match type of H with
      | context [validate_data pd ?rs d0] =>
          destruct (validate_data pd rs d0) as [[v|e] d2] eqn:V;
          apply validate_data_inv in V; subst d2; simpl in H
      end;
        inversion H; subst; simpl; (split; [reflexivity|]);
        intros d' Hd'; congruence.
    + inversion H; subst; simpl. split; [reflexivity|].
      intros d' Hd'. discriminate.
Qed.

Lemma loop_body_exports_or_reloads_witness :
  let l := mkLocals fix_frame [("Name", RequiredFields); ("City", DataTypes)]
             (Some [0]) [] in
  let fixed := snd (fix_failed_rows iso (typist "v" true) [0]
                      (validation_rules l) fix_frame) in
  written (snd (loop_body iso (typist "v" true) required_upload 0 l))
  = [(CSV, fixed)]
  /\ written (snd (loop_body iso (typist "v" false) required_upload 0 l)) = []
  /\ df (snd (loop_body iso (typist "v" false) required_upload 0 l))
     = required_frame.
Proof.
  intros l fixed.
  destruct (loop_body_exports_or_reloads iso (typist "v" true) required_upload 0
              l [0] [] fixed
              (fst (loop_body iso (typist "v" true) required_upload 0 l))
              (snd (loop_body iso (typist "v" true) required_upload 0 l))
              eq_refl eq_refl eq_refl) as [Hc _].
  destruct (loop_body_exports_or_reloads iso (typist "v" false) required_upload
              0 l [0] [] fixed
              (fst (loop_body iso (typist "v" false) required_upload 0 l))
              (snd (loop_body iso (typist "v" false) required_upload 0 l))
              eq_refl eq_refl eq_refl) as [_ Hd].
  destruct (Hc eq_refl) as [_ [_ Hw]].
  destruct (Hd eq_refl) as [Hw' Hl].
  split; [exact Hw|]. split; [exact Hw'|].
  apply Hl. reflexivity.
Defined.

(** ** Columns the frame does not have, and frames with few rows *)

Lemma reads_column_missing : forall pd rules idx col rule fr d,
  reads_column col rule = true ->
  ~ In col (columns d) ->
  validate_column pd rules idx col rule fr d = (Raise KeyError, d).
Proof.
  intros pd rules idx col rule fr d Hr Hn.
  pose proof (df_getitem_missing col d Hn) as G.
  destruct rule; simpl in Hr; try discriminate; simpl;
    try rewrite Hr; unfold df_duplicated, bind; rewrite G; reflexivity.
Qed.

(** X17. A rule that reads its column ends the full run when the frame
    has no column of that name: for "Required fields" and "Unique
    values" on any column, "Pattern matching" on Email Address and
    "Custom validation functions" on Phone Number, the turn raises
    [KeyError], and the run as a whole raises and returns no list,
    whatever the other rules found. *)
Theorem validate_data_missing_column : forall pd rules d col rule,
  In (col, rule) rules ->
  reads_column col rule = true ->
  ~ In col (columns d) ->
  (forall idx fr,
     validate_column pd rules idx col rule fr d = (Raise KeyError, d))
  /\ exists e, validate_data pd rules d = (Raise e, d).
Proof.
  intros pd rules d col rule Hin Hr Hn. split.
  - intros idx fr. now apply reads_column_missing.
  - destruct (enumerate_from_In _ _ _ 0 Hin) as [idx Hidx].
    destruct (validate_data_loop_raises pd rules (enumerate rules) [] d
                idx col rule Hidx) as [e E].
    { intros fr'. exists KeyError. now apply reads_column_missing. }
    exists e. unfold validate_data, bind. rewrite E. reflexivity.
Qed.

Lemma validate_data_missing_column_witness :
  validate_data iso [("Name", RequiredFields); ("Code", UniqueValues)]
    required_frame
  = (Raise KeyError, required_frame)
  /\ exists e,
       validate_data iso [("Name", RequiredFields); ("Code", UniqueValues)]
         required_frame
       = (Raise e, required_frame).
Proof.
  split; [reflexivity|].
  apply (validate_data_missing_column iso
           [("Name", RequiredFields); ("Code", UniqueValues)] required_frame
           "Code" UniqueValues).
  - right. left. reflexivity.
  - reflexivity.
  - simpl. intros [H|[]]. discriminate.
Defined.

Lemma required_loop_total : forall pd rules items n fr d,
  Forall (fun cr => snd cr = RequiredFields) items ->
  (forall col rule, In (col, rule) items -> In col (columns d)) ->
  exists fr', validate_data_loop pd rules (enumerate_from n items) fr d
              = (Ok fr', d).
Proof.
  intros pd rules items. induction items as [|[col rule] items IH];
    intros n fr d Hall Hcols; simpl.
  - exists fr. reflexivity.
  - inversion Hall as [|? ? Hr Hall']; subst. simpl in Hr. subst rule.
    destruct (df_getitem_ok col d (Hcols col RequiredFields (or_introl eq_refl)))
      as [c Hc].
    assert (Hcols' : forall c0 r0, In (c0, r0) items -> In c0 (columns d))
      by (intros c0 r0 H0; apply (Hcols c0 r0); now right).
    unfold bind. simpl. unfold bind. rewrite Hc.
    destruct (any (map isnull c)); unfold ret; apply IH; assumption.
Qed.

(** X18. The display of the failed entries can end the run.  With
    rules that are all "Required fields" on columns of the frame, if
    the column of the rule at position [i] has a missing value and the
    frame has no more than [i] rows, [validate_data] raises
    [IndexError] at [df.iloc[failed_rows]] instead of returning its
    list: a frame with more columns than rows is enough. *)
Theorem validate_data_index_error : forall pd rules d i col c,
  Forall (fun cr => snd cr = RequiredFields) rules ->
  (forall col0 rule, In (col0, rule) rules -> In col0 (columns d)) ->
  nth_error rules i = Some (col, RequiredFields) ->
  df_getitem col d = (Ok c, d) ->
  In NaN c ->
  List.length (rows d) <= i ->
  validate_data pd rules d = (Raise IndexError, d).
Proof.
  intros pd rules d i col c Hall Hcols Hi Hc Hnan Hrows.
  destruct (required_loop_total pd rules rules 0 [] d Hall Hcols) as [fr E].
  assert (Hin : In i fr).
  { apply (required_loop_entries _ _ _ _ _ _ _ _ Hall E i).
    right. split; [lia|]. exists col, c. rewrite Nat.sub_0_r. auto. }
  unfold validate_data, bind, enumerate. rewrite E.
  destruct fr as [|x fr]; [contradiction|]. cbn [List.length Nat.ltb Nat.leb].
  unfold df_iloc.
  destruct (forallb (fun p => p <? List.length (rows d)) (x :: fr)) eqn:F;
    [|reflexivity].
  rewrite forallb_forall in F. specialize (F i Hin).
  apply Nat.ltb_lt in F. lia.
Qed.

Lemma validate_data_index_error_witness :
  let rules := [("Name", RequiredFields); ("City", RequiredFields)] in
  let d := frame_of_columns [("Name", [Str "x"]); ("City", [NaN])] in
  validate_data iso rules d = (Raise IndexError, d).
Proof.
  intros rules d.
  apply (validate_data_index_error iso rules d 1 "City" [NaN]).
  - repeat constructor.
  - intros col0 rule [H|[H|[]]]; inversion H; subst; simpl; auto.
  - reflexivity.
  - reflexivity.
  - left. reflexivity.
  - simpl. lia.
Defined.
